(** * PII tagging engine and policy engine: a shallow embedding

    The development follows [src/tagging_engine.py] (column classifier and
    dataframe scanner) and [src/policy_engine.py] (policy evaluator).

    Text is modelled on [string] (a sequence of 8-bit characters); the
    character classes of Python's [re] and [str.lower] are modelled on their
    ASCII range.  Python sets are [gset string]; [sorted] is a merge sort for
    the code-point order of strings. *)

From Stdlib Require Import Ascii String.
From stdpp Require Import base decidable list strings gmap sorting.

Local Open Scope string_scope.
Local Open Scope list_scope.

#[local] Set Warnings "-clear-no-such-hyp".

(** ** Python string primitives *)

Module PyStr.

(** [s.split(sep)] for a one-character separator: never the empty list. *)
Fixpoint split (sep : ascii) (s : string) : list string :=
  match s with
  | EmptyString => [ EmptyString ]
  | String c s' =>
      if Ascii.eqb c sep then EmptyString :: split sep s'
      else match split sep s' with
           | [] => [ String c EmptyString ]
           | w :: ws => String c w :: ws
           end
  end.

(** [sep.join(parts)]. *)
Definition join (sep : string) (parts : list string) : string :=
  String.concat sep parts.

(** [s.startswith(p)]. *)
Fixpoint startswith (s p : string) : bool :=
  match p, s with
  | EmptyString, _ => true
  | String a p', String b s' => Ascii.eqb a b && startswith s' p'
  | String _ _, EmptyString => false
  end.

(** [c in s] for a one-character needle. *)
Fixpoint contains_char (c : ascii) (s : string) : bool :=
  match s with
  | EmptyString => false
  | String d s' => Ascii.eqb d c || contains_char c s'
  end.

(** [c.isspace()] on the ASCII range: tab, line feed, vertical tab, form
    feed, carriage return, the four separators 28-31, and the space. *)
Definition isspace (c : ascii) : bool :=
  let n := nat_of_ascii c in
  (((9 <=? n) && (n <=? 13)) || ((28 <=? n) && (n <=? 32)))%nat.

(** Some character of [s] is a whitespace character. *)
Fixpoint contains_whitespace (s : string) : bool :=
  match s with
  | EmptyString => false
  | String c s' => isspace c || contains_whitespace s'
  end.

(** Truthiness of a [str]: the empty string is falsy. *)
Definition truthy (s : string) : bool :=
  match s with EmptyString => false | _ => true end.

(** [s.lower()], on the ASCII letters. *)
Definition lower_char (c : ascii) : ascii :=
  let n := nat_of_ascii c in
  if ((65 <=? n) && (n <=? 90))%nat then ascii_of_nat (n + 32) else c.

Fixpoint lower (s : string) : string :=
  match s with
  | EmptyString => EmptyString
  | String c s' => String (lower_char c) (lower s')
  end.

(** [s <= t] on [str]: lexicographic by code point. *)
Definition le (s t : string) : Prop := String.leb s t = true.

#[global] Instance le_dec : RelDecision le.
Proof. intros s t. unfold le. apply _. Defined.

(** [sorted(l)] for a list of strings. *)
Definition sorted (l : list string) : list string := merge_sort le l.

End PyStr.

(** ** Python sets of strings *)

Module PySet.

(** [sorted(X)] for a set [X]: the enumeration order of the set is not
    observable, only the sorted list is. *)
Definition sorted (X : gset string) : list string :=
  PyStr.sorted (elements X).

(** Truthiness of a [set]: the empty set is falsy. *)
Definition truthy (X : gset string) : bool := bool_decide (X ≠ ∅).

(** [set(l)]. *)
Definition of_list (l : list string) : gset string := list_to_set l.

(** [l] lists the elements of [X] once each, in increasing order. *)
Definition sorted_enumeration (l : list string) (X : gset string) : Prop :=
  StronglySorted PyStr.le l /\ NoDup l /\ forall x, x ∈ l <-> x ∈ X.

End PySet.

(** ** Policy engine ([src/policy_engine.py]) *)

Module PolicyEngine.

(** [@dataclass class Violation].  [policy_id] is whatever
    [policy.get("id")] returned: [None] when the rule has no [id]. *)
Record Violation := mkViolation {
  policy_id : option string;
  table : string;
  column : string;
  pii_tags : string;
  reason : string;
}.

(** One entry of the [policies] list of the YAML document: a dict whose
    keys are all optional for the code, read with [dict.get]. *)
Record PolicyRule := mkPolicyRule {
  rule_id : option string;                        (* "id" *)
  rule_forbidden_tags : option (list string);     (* "forbidden_tags" *)
  rule_applies_to_tables : option (list string);  (* "applies_to_tables" *)
  rule_table_name_prefix : option string;         (* "table_name_prefix" *)
  rule_require_tag_for_detected : option bool;
                                            (* "require_tag_for_detected" *)
}.

(** The loaded YAML document: [policies.get("policies", [])]. *)
Record PolicyDoc := mkPolicyDoc {
  doc_policies : option (list PolicyRule);
}.

(** One row of the registry dataframe.  [row_table] and [row_column] hold
    [str(row["table"])] and [str(row["column"])]; [row_pii_tags] is [None]
    for a null cell ([pd.notna] false) and [Some (str cell)] otherwise. *)
Record RegistryRow := mkRegistryRow {
  row_table : string;
  row_column : string;
  row_pii_tags : option string;
}.

Abbreviation Registry := (list RegistryRow).

(** Per-policy locals computed before the row loop (lines 34-38). *)
Definition forbidden (policy : PolicyRule) : gset string :=
  PySet.of_list (default [] (rule_forbidden_tags policy)).

(** [set(...) if policy.get("applies_to_tables") else None]: an absent,
    null or empty list gives [None]. *)
Definition applies_tables (policy : PolicyRule) : option (gset string) :=
  match rule_applies_to_tables policy with
  | Some (t :: ts) => Some (PySet.of_list (t :: ts))
  | Some [] | None => None
  end.

Definition name_prefix (policy : PolicyRule) : option string :=
  rule_table_name_prefix policy.

Definition require_tag_for_detected (policy : PolicyRule) : bool :=
  default false (rule_require_tag_for_detected policy).

(** Line 43: [set(str(row["pii_tags"]).split(","))] or the empty set. *)
Definition tags (row : RegistryRow) : gset string :=
  match row_pii_tags row with
  | Some s => PySet.of_list (PyStr.split "," s)
  | None => ∅
  end.

(** Lines 46-49: [true] when one of the two [continue]s is taken. *)
Definition skipped (policy : PolicyRule) (row : RegistryRow) : bool :=
  match applies_tables policy with
  | Some ts => PySet.truthy ts && bool_decide (row_table row ∉ ts)
  | None => false
  end
  || match name_prefix policy with
     | Some p => PyStr.truthy p && negb (PyStr.startswith (row_table row) p)
     | None => false
     end.

Definition forbidden_violation (policy : PolicyRule) (row : RegistryRow)
  : Violation :=
  {| policy_id := rule_id policy;
     table := row_table row;
     column := row_column row;
     pii_tags := PyStr.join "," (PySet.sorted (tags row));
     reason :=
       "forbidden tags present: "
       +:+ PyStr.join "," (PySet.sorted (tags row ∩ forbidden policy)) |}.

Definition missing_tag_violation (policy : PolicyRule) (row : RegistryRow)
  : Violation :=
  {| policy_id := rule_id policy;
     table := row_table row;
     column := row_column row;
     pii_tags := "";
     reason := "detected PII missing tag" |}.

(** Lines 52 and 64: the conditions of the two checks. *)
Definition forbidden_fires (policy : PolicyRule) (row : RegistryRow) : bool :=
  PySet.truthy (forbidden policy)
  && PySet.truthy (tags row ∩ forbidden policy).

Definition missing_fires (policy : PolicyRule) (row : RegistryRow) : bool :=
  require_tag_for_detected policy && negb (PySet.truthy (tags row)).

(** The body of the inner loop (lines 41-74) as a transformer of the
    [violations] accumulator. *)
Definition visit_row (policy : PolicyRule) (violations : list Violation)
    (row : RegistryRow) : list Violation :=
  if skipped policy row then violations
  else
    let violations :=
      if forbidden_fires policy row
      then violations ++ [forbidden_violation policy row]
      else violations in
    let violations :=
      if missing_fires policy row
      then violations ++ [missing_tag_violation policy row]
      else violations in
    violations.

(** The body of the outer loop (lines 34-74). *)
Definition visit_policy (registry : Registry) (violations : list Violation)
    (policy : PolicyRule) : list Violation :=
  fold_left (visit_row policy) registry violations.

(** [evaluate_policies(policies, registry)]. *)
Definition evaluate_policies (policies : PolicyDoc) (registry : Registry)
  : list Violation :=
  fold_left (visit_policy registry) (default [] (doc_policies policies)) [].

End PolicyEngine.

(** ** Python's [re], on the constructs the two pattern catalogs use *)

Module Re.

Inductive regex : Type :=
| Eps                          (* the empty pattern *)
| Chr (cls : ascii -> bool)    (* one character of a class, a literal *)
| Seq (r1 r2 : regex)          (* r1 r2 *)
| Alt (r1 r2 : regex)          (* r1 | r2 *)
| Star (r : regex)             (* r* *)
| Bol                          (* ^ *)
| Eol                          (* $ *)
| WordB.                       (* \b *)

(** Character classes. *)
Definition code (c : ascii) : nat := nat_of_ascii c.
Definition in_range (lo hi : nat) (c : ascii) : bool :=
  ((lo <=? code c) && (code c <=? hi))%nat.
Definition digit (c : ascii) : bool := in_range 48 57 c.          (* \d, 0-9 *)
Definition upper (c : ascii) : bool := in_range 65 90 c.          (* A-Z *)
Definition lower (c : ascii) : bool := in_range 97 122 c.         (* a-z *)
Definition alpha (c : ascii) : bool := upper c || lower c.        (* A-Za-z *)
Definition word (c : ascii) : bool :=                              (* \w *)
  alpha c || digit c || (code c =? 95)%nat.
Definition space (c : ascii) : bool := PyStr.isspace c.           (* \s *)
Definition one_of (s : string) (c : ascii) : bool := PyStr.contains_char c s.

(** Derived forms. *)
Fixpoint Lit (s : string) : regex :=
  match s with
  | EmptyString => Eps
  | String c s' => Seq (Chr (Ascii.eqb c)) (Lit s')
  end.
Definition Opt (r : regex) : regex := Alt r Eps.                   (* r? *)
Fixpoint Rep (n : nat) (r : regex) : regex :=                      (* r{n} *)
  match n with
  | 0 => Eps
  | S n' => Seq r (Rep n' r)
  end.
Definition AtLeast (n : nat) (r : regex) : regex :=                (* r{n,} *)
  Seq (Rep n r) (Star r).
Definition Plus (r : regex) : regex := AtLeast 1 r.                (* r+ *)
Definition cat (rs : list regex) : regex := foldr Seq Eps rs.
Fixpoint alt (rs : list regex) : regex :=
  match rs with
  | [] => Chr (fun _ => false)
  | [r] => r
  | r :: rs' => Alt r (alt rs')
  end.

(** The matcher works on sets of positions of the subject: [ends r from]
    is the set of positions where a match of [r] that starts at a position
    of [from] can end.  None of the patterns has a back-reference, so
    whether a match exists does not depend on the order in which Python's
    backtracking tries the alternatives. *)
Section Run.
Variable text : list ascii.

Definition word_at (i : nat) : bool :=
  match text !! i with Some c => word c | None => false end.

(** [\b]: exactly one side of the position is a word character. *)
Definition boundary (i : nat) : bool :=
  xorb (match i with 0 => false | S j => word_at j end) (word_at i).

(** [$] without MULTILINE: the end of the subject, or just before a
    newline that is its last character. *)
Definition at_end (i : nat) : bool :=
  (i =? length text)%nat
  || ((S i =? length text)%nat
      && bool_decide (text !! i = Some (ascii_of_nat 10))).

Definition advance (cls : ascii -> bool) (i : nat) : option nat :=
  match text !! i with
  | Some c => if cls c then Some (S i) else None
  | None => None
  end.

Fixpoint ends (r : regex) (from : gset nat) : gset nat :=
  match r with
  | Eps => from
  | Chr cls => set_omap (advance cls) from
  | Seq r1 r2 => ends r2 (ends r1 from)
  | Alt r1 r2 => ends r1 from ∪ ends r2 from
  | Star r' => Nat.iter (S (length text)) (fun acc => acc ∪ ends r' acc) from
  | Bol => filter (fun i => i = 0) from
  | Eol => filter (fun i => at_end i = true) from
  | WordB => filter (fun i => boundary i = true) from
  end.
End Run.

(** What the matcher computes, as a relation: [spans text r i j] when [r]
    matches the characters of [text] from position [i] up to position [j]. *)
Inductive spans (text : list ascii) : regex -> nat -> nat -> Prop :=
| span_eps (i : nat) :
    spans text Eps i i
| span_chr (cls : ascii -> bool) (i : nat) (c : ascii) :
    text !! i = Some c -> cls c = true -> spans text (Chr cls) i (S i)
| span_seq (r1 r2 : regex) (i j k : nat) :
    spans text r1 i j -> spans text r2 j k -> spans text (Seq r1 r2) i k
| span_alt_l (r1 r2 : regex) (i j : nat) :
    spans text r1 i j -> spans text (Alt r1 r2) i j
| span_alt_r (r1 r2 : regex) (i j : nat) :
    spans text r2 i j -> spans text (Alt r1 r2) i j
| span_star_stop (r : regex) (i : nat) :
    spans text (Star r) i i
| span_star_more (r : regex) (i j k : nat) :
    spans text r i j -> spans text (Star r) j k -> spans text (Star r) i k
| span_bol :
    spans text Bol 0 0
| span_eol (i : nat) :
    at_end text i = true -> spans text Eol i i
| span_wordb (i : nat) :
    boundary text i = true -> spans text WordB i i.

(** [^ body $] *)
Definition anchored (body : regex) : regex := cat [Bol; body; Eol].

(** [bool(pattern.fullmatch(s))]: a match of the whole of [s]. *)
Definition fullmatch (pattern : regex) (s : string) : bool :=
  let text := list_ascii_of_string s in
  bool_decide (length text ∈ ends text pattern {[ 0 ]}).

(** [bool(pattern.match(s))]: a match that starts at position 0. *)
Definition match_ (pattern : regex) (s : string) : bool :=
  bool_decide (ends (list_ascii_of_string s) pattern {[ 0 ]} ≠ ∅).

(** [bool(re.search(pattern, s))]: a match that starts anywhere. *)
Definition search (pattern : regex) (s : string) : bool :=
  let text := list_ascii_of_string s in
  let starts : gset nat := list_to_set (seq 0 (S (length text))) in
  bool_decide (ends text pattern starts ≠ ∅).

End Re.

(** ** Tagging engine ([src/tagging_engine.py]) *)

Module TaggingEngine.
Import Re.

(** [PII_COLUMN_NAME_PATTERNS], in insertion order. *)
Definition sep : regex := Opt (Chr (one_of "-_")).        (* [-_]? and [_-]? *)

Definition PII_COLUMN_NAME_PATTERNS : list (string * regex) :=
  [ ("email",
      alt [cat [WordB; Lit "email"; WordB];
           cat [Lit "e"; sep; Lit "mail"]]);
    ("phone",
      alt [cat [WordB; Lit "phone"; WordB];
           cat [Lit "contact"; sep; Lit "number"];
           Lit "mobile"]);
    ("ip",
      alt [cat [Lit "ip"; Opt (cat [sep; Lit "address"])];
           cat [Bol; Lit "ip"; Eol]]);
    ("dob",
      alt [cat [Lit "date"; sep; Lit "of"; sep; Lit "birth"];
           cat [WordB; Lit "dob"; WordB];
           cat [Lit "birth"; sep; Lit "date"]]);
    ("name",
      alt [cat [WordB; Lit "name"; WordB];
           cat [Lit "full"; sep; Lit "name"];
           cat [Lit "first"; sep; Lit "name"];
           cat [Lit "last"; sep; Lit "name"]]);
    ("national_id",
      cat [WordB;
           alt [Lit "ssn"; Lit "nin"; Lit "passport";
                cat [Lit "national"; sep; Lit "id"];
                Lit "aadhar"; Lit "aadhaar"];
           WordB]) ].

(** [(?:25[0-5]|2[0-4]\d|[01]?\d\d?)] *)
Definition octet : regex :=
  alt [cat [Lit "25"; Chr (in_range 48 53)];
       cat [Lit "2"; Chr (in_range 48 52); Chr digit];
       cat [Opt (Chr (one_of "01")); Chr digit; Opt (Chr digit)]].

(** [PII_VALUE_REGEXES], in insertion order: each pattern is [^ ... $]. *)
Definition PII_VALUE_REGEXES : list (string * regex) :=
  [ ("email",
      anchored
        (cat [Plus (Chr (fun c => alpha c || digit c || one_of "._%+-" c));
              Lit "@";
              Plus (Chr (fun c => alpha c || digit c || one_of ".-" c));
              Lit ".";
              AtLeast 2 (Chr alpha)]));
    ("phone",
      anchored
        (cat [Opt (Lit "+"); Chr digit;
              AtLeast 7
                (Chr (fun c => digit c || space c || one_of "().-" c))]));
    ("ip",
      anchored (cat [Rep 3 (cat [octet; Lit "."]); octet]));
    ("dob",
      anchored
        (alt [cat [Rep 4 (Chr digit); Lit "-"; Rep 2 (Chr digit); Lit "-";
                   Rep 2 (Chr digit)];
              cat [Rep 2 (Chr digit); Lit "/"; Rep 2 (Chr digit); Lit "/";
                   Rep 4 (Chr digit)]]));
    ("national_id",
      anchored
        (cat [Rep 3 (Chr digit); Opt (Lit "-"); Rep 2 (Chr digit);
              Opt (Lit "-"); Rep 4 (Chr digit)])) ].

(** [@dataclass class ColumnPIIResult]. *)
Record ColumnPIIResult := mkColumnPIIResult {
  table : string;
  column : string;
  detected_tags : list string;
  detection_reason : string;
}.

(** A pandas column.  A cell is [None] when it is null ([dropna] removes
    it) and [Some s] otherwise, [s] being what [astype(str)] makes of it. *)
Inductive dtype := object | int64 | float64 | bool_ | datetime64.

#[global] Instance dtype_eq_dec : EqDecision dtype.
Proof. solve_decision. Defined.

Record Series := mkSeries {
  series_dtype : dtype;
  series_cells : list (option string);
}.

(** A dataframe: its columns in order, under distinct labels, so that
    [df[col]] is the series stored under [col]. *)
Abbreviation DataFrame := (list (string * Series)).

(** [series.dropna().astype(str).head(n)] *)
Definition dropna_astype_str_head (n : nat) (series : Series) : list string :=
  take n (omap (fun cell => cell) (series_cells series)).

(** [sum(1 for v in sample if test(v))] *)
Fixpoint count_if (test : string -> bool) (sample : list string) : nat :=
  match sample with
  | [] => 0
  | v :: rest => (if test v then 1 else 0) + count_if test rest
  end.

(** A [for tag, pattern in catalog.items(): if hit(pattern): return tag]
    loop, ending in [return None]. *)
Fixpoint first_tag {P : Type} (hit : P -> bool) (catalog : list (string * P))
  : option string :=
  match catalog with
  | [] => None
  | (tag, pattern) :: rest =>
      if hit pattern then Some tag else first_tag hit rest
  end.

Definition detect_by_name (column_name : string) : option string :=
  let lower := PyStr.lower column_name in
  first_tag (fun pattern => Re.search pattern lower) PII_COLUMN_NAME_PATTERNS.

Definition matches (pattern : regex) (sample : list string) : nat :=
  count_if (Re.match_ pattern) sample.

Definition detect_by_values (series : Series) : option string :=
  let sample := dropna_astype_str_head 50 series in
  match sample with
  | [] => None
  | _ :: _ =>
      first_tag (fun pattern => (3 <=? matches pattern sample)%nat)
        PII_VALUE_REGEXES
  end.

(** The two lists a column's iteration of [scan_dataframe] builds. *)
Record ColumnState := mkColumnState {
  tags : list string;
  reason_parts : list string;
}.

Definition record (tag marker : string) (st : ColumnState) : ColumnState :=
  {| tags := tags st ++ [tag]; reason_parts := reason_parts st ++ [marker] |}.

(** Lines 61-64. *)
Definition name_step (col : string) (st : ColumnState) : ColumnState :=
  match detect_by_name col with
  | Some name_tag =>
      if PyStr.truthy name_tag then record name_tag ("name:" +:+ name_tag) st
      else st
  | None => st
  end.

(** Lines 66-69. *)
Definition value_step (series : Series) (st : ColumnState) : ColumnState :=
  match detect_by_values series with
  | Some value_tag =>
      if PyStr.truthy value_tag && bool_decide (value_tag ∉ tags st)
      then record value_tag ("value:" +:+ value_tag) st
      else st
  | None => st
  end.

(** Line 74: the condition of the heuristic on the 20-value sample. *)
Definition names_with_spaces (series : Series) : bool :=
  let sampled := dropna_astype_str_head 20 series in
  negb (bool_decide (sampled = []))
  && (5 <=? count_if (PyStr.contains_char " ") sampled)%nat.

(** Lines 72-76. *)
Definition fallback_step (series : Series) (st : ColumnState) : ColumnState :=
  if bool_decide (tags st = []) && bool_decide (series_dtype series = object)
  then
    if names_with_spaces series
    then record "name" "heuristic:name_with_spaces" st
    else st
  else st.

Definition classify (col : string) (series : Series) : ColumnState :=
  fallback_step series
    (value_step series (name_step col {| tags := []; reason_parts := [] |})).

(** [",".join(reason_parts) or "n/a"] *)
Definition join_reason (parts : list string) : string :=
  let joined := PyStr.join "," parts in
  if PyStr.truthy joined then joined else "n/a".

(** The body of the loop over [df.columns] (lines 58-86) as a transformer
    of the [results] accumulator. *)
Definition scan_column (table_name : string) (results : list ColumnPIIResult)
    (entry : string * Series) : list ColumnPIIResult :=
  let '(col, series) := entry in
  let st := classify col series in
  match tags st with
  | [] => results
  | _ :: _ =>
      results ++ [ {| table := table_name;
                      column := col;
                      detected_tags := PyStr.sorted (tags st);
                      detection_reason := join_reason (reason_parts st) |} ]
  end.

Definition scan_dataframe (df : DataFrame) (table_name : string)
  : list ColumnPIIResult :=
  fold_left (scan_column table_name) df [].

End TaggingEngine.


(** ** The evaluator as section 4.3 of the specification words it *)

Module PolicySpec.
Import PolicyEngine.

(** What one registry row contributes under one policy: nothing when the
    scope filter skips it, else the violation of each check that fires,
    the forbidden-tag check first. *)
Definition row_violations (policy : PolicyRule) (row : RegistryRow)
  : list Violation :=
  if skipped policy row then []
  else
    (if forbidden_fires policy row then [forbidden_violation policy row] else [])
    ++ (if missing_fires policy row then [missing_tag_violation policy row] else []).

(** Policies in declaration order, and under each the rows in registry
    order. *)
Definition evaluate_in_order (policies : list PolicyRule) (registry : Registry)
  : list Violation :=
  flat_map (fun policy => flat_map (row_violations policy) registry) policies.

(** A document that lists the given rules. *)
Definition doc (policies : list PolicyRule) : PolicyDoc :=
  {| doc_policies := Some policies |}.

(** A rule with its [id] key removed, and a violation with a null
    [policy_id]. *)
Definition without_id (policy : PolicyRule) : PolicyRule :=
  {| rule_id := None;
     rule_forbidden_tags := rule_forbidden_tags policy;
     rule_applies_to_tables := rule_applies_to_tables policy;
     rule_table_name_prefix := rule_table_name_prefix policy;
     rule_require_tag_for_detected := rule_require_tag_for_detected policy |}.

Definition without_policy_id (v : Violation) : Violation :=
  {| policy_id := None;
     table := table v;
     column := column v;
     pii_tags := pii_tags v;
     reason := reason v |}.

(** Scenarios C, D and E of the specification, and rules used as
    concrete inputs below. *)
Definition no_ssn : PolicyRule :=
  mkPolicyRule (Some "no_ssn") (Some ["national_id"]) None None None.
Definition logs_ssn : RegistryRow :=
  mkRegistryRow "logs" "ssn" (Some "national_id").

Definition users_only : PolicyRule :=
  mkPolicyRule (Some "users_only") (Some ["email"]) (Some ["users"]) None None.
Definition logs_email : RegistryRow :=
  mkRegistryRow "logs" "user_email" (Some "email").

Definition must_tag : PolicyRule :=
  mkPolicyRule (Some "must_tag") None None None (Some true).
Definition untagged : RegistryRow :=
  mkRegistryRow "events" "payload" None.

(** A rule that has no [id]. *)
Definition anonymous_rule : PolicyRule :=
  mkPolicyRule None (Some ["email"]) None None None.
Definition users_email : RegistryRow :=
  mkRegistryRow "users" "email" (Some "email").

(** A rule whose [applies_to_tables] is present and empty. *)
Definition empty_scope : PolicyRule :=
  mkPolicyRule (Some "nowhere") (Some ["email"]) (Some []) None None.

End PolicySpec.

(** ** The classifier as section 4.1 of the specification words it *)

Module ClassifierSpec.
Import TaggingEngine.

(** The outcomes of classifying one column: a name-derived tag alone, a
    name-derived and a different value-derived tag, a value-derived tag
    alone, the fallback tag alone, or nothing. *)
Inductive classified (col : string) (series : Series) : ColumnState -> Prop :=
| by_name_only (n : string) :
    detect_by_name col = Some n ->
    detect_by_values series = None \/ detect_by_values series = Some n ->
    classified col series
      {| tags := [n]; reason_parts := ["name:" +:+ n] |}
| by_name_and_value (n v : string) :
    detect_by_name col = Some n ->
    detect_by_values series = Some v ->
    n <> v ->
    classified col series
      {| tags := [n; v];
         reason_parts := ["name:" +:+ n; "value:" +:+ v] |}
| by_value_only (v : string) :
    detect_by_name col = None ->
    detect_by_values series = Some v ->
    classified col series
      {| tags := [v]; reason_parts := ["value:" +:+ v] |}
| by_fallback :
    detect_by_name col = None ->
    detect_by_values series = None ->
    series_dtype series = object ->
    5 <= count_if (PyStr.contains_char " ") (dropna_astype_str_head 20 series) ->
    classified col series
      {| tags := ["name"]; reason_parts := ["heuristic:name_with_spaces"] |}
| untagged :
    detect_by_name col = None ->
    detect_by_values series = None ->
    series_dtype series <> object
    \/ count_if (PyStr.contains_char " ") (dropna_astype_str_head 20 series) < 5 ->
    classified col series {| tags := []; reason_parts := [] |}.

(** The registry row of a column, if it has one. *)
Definition column_rows (table_name : string) (entry : string * Series)
  : list ColumnPIIResult :=
  let st := classify entry.1 entry.2 in
  match tags st with
  | [] => []
  | _ :: _ =>
      [ {| table := table_name;
           column := entry.1;
           detected_tags := PyStr.sorted (tags st);
           detection_reason := PyStr.join "," (reason_parts st) |} ]
  end.

(** Concrete columns used below.  [tabbed] is the three characters
    a, TAB, b. *)
Definition text_column (values : list string) : Series :=
  {| series_dtype := object; series_cells := map Some values |}.

Definition tabbed : string :=
  String "a" (String (ascii_of_nat 9) (String "b" EmptyString)).

Definition tabbed_notes : Series := text_column (replicate 5 tabbed).

Definition full_names : Series :=
  text_column ["Ada Lovelace"; "Alan Turing"; "Grace Hopper"; "Edsger Dijkstra";
               "Barbara Liskov"].

Definition ip_values : Series :=
  text_column ["192.168.1.1"; "10.0.0.1"; "172.16.254.1"].

Definition email_values : Series :=
  text_column ["a@b.com"; "c@d.com"; "e@f.com"; "hello"].

(** [with_newline] is the address a@b.com followed by a line feed. *)
Definition with_newline : string :=
  "a@b.com" +:+ String (ascii_of_nat 10) EmptyString.

Definition newline_emails : Series := text_column (replicate 3 with_newline).

End ClassifierSpec.

(** ** The parts of the value patterns, and measures of a pattern *)

Module PatternParts.
Import Re TaggingEngine.

(** The bodies of the five value patterns, between [^] and [$]. *)
Definition email_local (c : ascii) : bool :=            (* [A-Za-z0-9._%+-] *)
  alpha c || digit c || one_of "._%+-" c.
Definition email_domain (c : ascii) : bool :=           (* [A-Za-z0-9.-] *)
  alpha c || digit c || one_of ".-" c.
Definition phone_class (c : ascii) : bool :=            (* [\d\s().-] *)
  digit c || space c || one_of "().-" c.

Definition email_body : regex :=
  cat [Plus (Chr email_local); Lit "@"; Plus (Chr email_domain); Lit ".";
       AtLeast 2 (Chr alpha)].

Definition phone_body : regex :=
  cat [Opt (Lit "+"); Chr digit; AtLeast 7 (Chr phone_class)].

Definition ip_body : regex :=
  cat [Rep 3 (cat [octet; Lit "."]); octet].

Definition iso_date_body : regex :=                     (* \d{4}-\d{2}-\d{2} *)
  cat [Rep 4 (Chr digit); Lit "-"; Rep 2 (Chr digit); Lit "-";
       Rep 2 (Chr digit)].

Definition slash_date_body : regex :=                   (* \d{2}/\d{2}/\d{4} *)
  cat [Rep 2 (Chr digit); Lit "/"; Rep 2 (Chr digit); Lit "/";
       Rep 4 (Chr digit)].

Definition national_id_body : regex :=
  cat [Rep 3 (Chr digit); Opt (Lit "-"); Rep 2 (Chr digit); Opt (Lit "-");
       Rep 4 (Chr digit)].

(** The first three name patterns. *)
Definition email_name : regex :=
  alt [cat [WordB; Lit "email"; WordB]; cat [Lit "e"; sep; Lit "mail"]].

Definition phone_name : regex :=
  alt [cat [WordB; Lit "phone"; WordB];
       cat [Lit "contact"; sep; Lit "number"];
       Lit "mobile"].

Definition ip_name : regex :=
  alt [cat [Lit "ip"; Opt (cat [sep; Lit "address"])];
       cat [Bol; Lit "ip"; Eol]].

(** Every character class of [r] lies within [allowed]. *)
Fixpoint only (allowed : ascii -> bool) (r : regex) : Prop :=
  match r with
  | Chr cls => forall c, cls c = true -> allowed c = true
  | Seq r1 r2 | Alt r1 r2 => only allowed r1 /\ only allowed r2
  | Star r' => only allowed r'
  | Eps | Bol | Eol | WordB => True
  end.

(** The least number of characters a match of [r] takes. *)
Fixpoint min_len (r : regex) : nat :=
  match r with
  | Chr _ => 1
  | Seq r1 r2 => min_len r1 + min_len r2
  | Alt r1 r2 => Nat.min (min_len r1) (min_len r2)
  | Eps | Star _ | Bol | Eol | WordB => 0
  end.

(** The characters of [text] from position [i] up to [j] are all in [cls]. *)
Definition run (text : list ascii) (cls : ascii -> bool) (i j : nat) : Prop :=
  forall k, i <= k < j -> exists c, text !! k = Some c /\ cls c = true.

(** Every match of [r] begins with a character of [cls]. *)
Definition leads (text : list ascii) (cls : ascii -> bool) (r : regex) : Prop :=
  forall i j, spans text r i j -> exists c, text !! i = Some c /\ cls c = true.

(** The line feed. *)
Definition newline (c : ascii) : bool := Ascii.eqb c (ascii_of_nat 10).

(** Digits, the dash and the dot: the characters of SSNs, ISO dates and
    dotted quads. *)
Definition numeric_class (c : ascii) : bool := digit c || one_of "-." c.

(** A value that the national_id pattern, the ISO branch of the dob
    pattern, or, when it has 8 characters or more, the ip pattern
    matches. *)
Definition numeric_id (v : string) : bool :=
  Re.match_ (anchored national_id_body) v
  || Re.match_ (anchored iso_date_body) v
  || (Re.match_ (anchored ip_body) v && (8 <=? String.length v)%nat).

End PatternParts.

(** ** From the scan to the registry ([scan_pii.py], [results_to_dataframe]) *)

Module Pipeline.
Import TaggingEngine.

(** One row of the frame that [results_to_dataframe] builds
    ([tagging_engine.py], lines 90-101). *)
Record ReportRow := mkReportRow {
  report_table : string;
  report_column : string;
  report_pii_tags : string;
  report_reason : string;
}.

Definition report_row (r : ColumnPIIResult) : ReportRow :=
  {| report_table := table r;
     report_column := column r;
     report_pii_tags := PyStr.join "," (detected_tags r);
     report_reason := detection_reason r |}.

Definition results_to_dataframe (results : list ColumnPIIResult)
  : list ReportRow :=
  map report_row results.

(** The loop of [scan_pii.main] (lines 24-28) over the loaded CSV files,
    each given as its stem and its frame, in the order of [find_csvs]:
    [all_results.extend(scan_dataframe(df, table_name))]. *)
Definition scan_tables (tables : list (string * DataFrame))
  : list ColumnPIIResult :=
  fold_left (fun all_results entry =>
               all_results ++ scan_dataframe entry.2 entry.1)
            tables [].

(** What [evaluate_policies] reads (lines 41-43) from a row of such a
    frame held in memory: its cells are strings, none is null. *)
Definition registry_row (row : ReportRow) : PolicyEngine.RegistryRow :=
  {| PolicyEngine.row_table := report_table row;
     PolicyEngine.row_column := report_column row;
     PolicyEngine.row_pii_tags := Some (report_pii_tags row) |}.

Definition registry_of (results : list ColumnPIIResult)
  : list PolicyEngine.RegistryRow :=
  map registry_row (results_to_dataframe results).

(** The registry row of one scan result. *)
Definition registry_row_of (r : ColumnPIIResult) : PolicyEngine.RegistryRow :=
  registry_row (report_row r).

(** A rule with its two scope keys removed. *)
Definition unscoped (policy : PolicyEngine.PolicyRule)
  : PolicyEngine.PolicyRule :=
  {| PolicyEngine.rule_id := PolicyEngine.rule_id policy;
     PolicyEngine.rule_forbidden_tags := PolicyEngine.rule_forbidden_tags policy;
     PolicyEngine.rule_applies_to_tables := None;
     PolicyEngine.rule_table_name_prefix := None;
     PolicyEngine.rule_require_tag_for_detected :=
       PolicyEngine.rule_require_tag_for_detected policy |}.

End Pipeline.

(** * Properties *)

(** ** Loops that append to an accumulator *)

Section Accumulate.
Context {A B : Type}.
Variable step : list B -> A -> list B.
Variable emit : A -> list B.
Hypothesis step_appends : forall acc x, step acc x = acc ++ emit x.

Lemma fold_left_appends (l : list A) (acc : list B) :
  fold_left step l acc = acc ++ flat_map emit l.
Proof.
  revert acc. induction l as [|x l IH]; intros acc; simpl.
  - by rewrite app_nil_r.
  - by rewrite IH, step_appends, <- app_assoc.
Qed.
End Accumulate.

(** ** The order of strings and [sorted] *)

Module PyStrFacts.
Import PyStr.

Lemma compare_refl (s : string) : String.compare s s = Eq.
Proof.
  induction s as [|c s IH]; simpl; [done|].
  unfold Ascii.compare. by rewrite N.compare_refl.
Qed.

Lemma compare_lt_trans (s1 s2 s3 : string) :
  String.compare s1 s2 = Lt -> String.compare s2 s3 = Lt ->
  String.compare s1 s3 = Lt.
Proof.
  revert s2 s3. induction s1 as [|c1 s1 IH]; intros [|c2 s2] [|c3 s3];
    simpl; try done.
  unfold Ascii.compare.
  destruct (N.compare_spec (N_of_ascii c1) (N_of_ascii c2)) as [E12|L12|G12];
    try done;
    destruct (N.compare_spec (N_of_ascii c2) (N_of_ascii c3)) as [E23|L23|G23];
    try done; intros H12 H23.
  - rewrite E12, E23, N.compare_refl. eauto.
  - by rewrite E12, (proj2 (N.compare_lt_iff _ _) L23).
  - by rewrite <- E23, (proj2 (N.compare_lt_iff _ _) L12).
  - assert (N_of_ascii c1 < N_of_ascii c3)%N as L13 by lia.
    by rewrite (proj2 (N.compare_lt_iff _ _) L13).
Qed.

Lemma le_iff (s t : string) : le s t <-> String.compare s t <> Gt.
Proof. unfold le, String.leb. destruct (String.compare s t); naive_solver. Qed.

#[global] Instance le_refl : Reflexive le.
Proof. intros s. apply le_iff. by rewrite compare_refl. Qed.

#[global] Instance le_total : Total le.
Proof. intros s t. apply String.leb_total. Qed.

#[global] Instance le_antisym : AntiSymm (=) le.
Proof. intros s t. apply String.leb_antisym. Qed.

#[global] Instance le_trans : Transitive le.
Proof.
  intros s1 s2 s3. rewrite !le_iff. intros H12 H23.
  destruct (String.compare s1 s2) eqn:E12; [| |done].
  - by apply String.compare_eq_iff in E12 as ->.
  - destruct (String.compare s2 s3) eqn:E23; [| |done].
    + apply String.compare_eq_iff in E23 as <-. by rewrite E12.
    + by rewrite (compare_lt_trans _ _ _ E12 E23).
Qed.

Lemma sorted_Sorted (l : list string) : StronglySorted le (sorted l).
Proof. apply (StronglySorted_merge_sort le). Qed.

Lemma sorted_Permutation (l : list string) : sorted l ≡ₚ l.
Proof. apply merge_sort_Permutation. Qed.

Lemma sorted_elem_of (l : list string) (x : string) : x ∈ sorted l <-> x ∈ l.
Proof. by rewrite sorted_Permutation. Qed.

(** The order in which the elements are handed to [sorted] is not
    observable in its result. *)
Lemma sorted_order_irrelevant (l1 l2 : list string) :
  l1 ≡ₚ l2 -> sorted l1 = sorted l2.
Proof.
  intros Hp. apply (StronglySorted_unique le); try apply sorted_Sorted.
  by rewrite !sorted_Permutation.
Qed.

Lemma sorted_nil_inv (l : list string) : sorted l = [] -> l = [].
Proof.
  intros H. apply Permutation_nil_r. by rewrite <- H, sorted_Permutation.
Qed.

Lemma startswith_spec (s p : string) :
  startswith s p = true <-> exists rest, s = p +:+ rest.
Proof.
  revert s. induction p as [|a p IH]; intros s; simpl.
  - split; [intros _; by exists s | by destruct s].
  - destruct s as [|b s]; simpl.
    + split; [done | by intros [rest ?]].
    + rewrite andb_true_iff, IH. split.
      * intros [Hab [rest ->]]. apply Ascii.eqb_eq in Hab as ->. by exists rest.
      * intros [rest [= -> ->]]. split; [apply Ascii.eqb_refl | by exists rest].
Qed.

Lemma str_truthy_true (s : string) : truthy s = true <-> s <> "".
Proof. by destruct s. Qed.

End PyStrFacts.

(** ** Sets *)

Module PySetFacts.
Import PySet.

Lemma set_truthy_true (X : gset string) : truthy X = true <-> X <> ∅.
Proof. unfold truthy. apply bool_decide_eq_true. Qed.

Lemma set_truthy_false (X : gset string) : truthy X = false <-> X = ∅.
Proof.
  unfold truthy. rewrite bool_decide_eq_false. split; [|naive_solver].
  intros H. by destruct (decide (X = ∅)).
Qed.

Lemma sorted_is_enumeration (X : gset string) :
  sorted_enumeration (sorted X) X.
Proof.
  unfold sorted. split; [apply PyStrFacts.sorted_Sorted|]. split.
  - rewrite PyStrFacts.sorted_Permutation. apply NoDup_elements.
  - intros x. rewrite PyStrFacts.sorted_elem_of. apply elem_of_elements.
Qed.

(** Whatever order a set is iterated in, [sorted] returns the same list. *)
Lemma sorted_any_order (X : gset string) (l : list string) :
  l ≡ₚ elements X -> PyStr.sorted l = sorted X.
Proof. apply PyStrFacts.sorted_order_irrelevant. Qed.

End PySetFacts.

(** ** The policy evaluator *)

Module PolicyFacts.
Import PolicyEngine PolicySpec.

Lemma visit_row_appends (policy : PolicyRule) (acc : list Violation)
    (row : RegistryRow) :
  visit_row policy acc row = acc ++ row_violations policy row.
Proof.
  unfold visit_row, row_violations.
  destruct (skipped policy row); [by rewrite app_nil_r|].
  destruct (forbidden_fires policy row), (missing_fires policy row); simpl;
    by rewrite <- ?app_assoc, ?app_nil_r.
Qed.

Lemma visit_policy_appends (registry : Registry) (acc : list Violation)
    (policy : PolicyRule) :
  visit_policy registry acc policy
  = acc ++ flat_map (row_violations policy) registry.
Proof. apply fold_left_appends, visit_row_appends. Qed.

Lemma evaluate_policies_in_order (policies : PolicyDoc) (registry : Registry) :
  evaluate_policies policies registry
  = evaluate_in_order (default [] (doc_policies policies)) registry.
Proof.
  unfold evaluate_policies, evaluate_in_order.
  rewrite (fold_left_appends _ _ (visit_policy_appends registry)). done.
Qed.

Lemma evaluate_single (policy : PolicyRule) (row : RegistryRow) :
  evaluate_policies (doc [policy]) [row] = row_violations policy row.
Proof.
  rewrite evaluate_policies_in_order. simpl. by rewrite !app_nil_r.
Qed.

Lemma evaluate_one_policy (policy : PolicyRule) (registry : Registry) :
  evaluate_policies (doc [policy]) registry
  = flat_map (row_violations policy) registry.
Proof. rewrite evaluate_policies_in_order. simpl. by rewrite app_nil_r. Qed.

(** The place of one (policy, row) pair in the output. *)
Lemma evaluate_split (before after : list PolicyRule) (policy : PolicyRule)
    (above below : Registry) (row : RegistryRow) :
  evaluate_policies (doc (before ++ policy :: after)) (above ++ row :: below)
  = evaluate_policies (doc before) (above ++ row :: below)
    ++ evaluate_policies (doc [policy]) above
    ++ row_violations policy row
    ++ evaluate_policies (doc [policy]) below
    ++ evaluate_policies (doc after) (above ++ row :: below).
Proof.
  rewrite !evaluate_one_policy, !evaluate_policies_in_order. simpl.
  unfold evaluate_in_order. rewrite flat_map_app. simpl.
  rewrite flat_map_app. simpl. by rewrite <- !app_assoc.
Qed.

Lemma forbidden_fires_true (policy : PolicyRule) (row : RegistryRow) :
  forbidden_fires policy row = true <-> tags row ∩ forbidden policy <> ∅.
Proof.
  unfold forbidden_fires.
  rewrite andb_true_iff, !PySetFacts.set_truthy_true. set_solver.
Qed.

Lemma missing_fires_true (policy : PolicyRule) (row : RegistryRow) :
  missing_fires policy row = true
  <-> require_tag_for_detected policy = true /\ tags row = ∅.
Proof.
  unfold missing_fires.
  by rewrite andb_true_iff, negb_true_iff, PySetFacts.set_truthy_false.
Qed.

(** The forbidden-tag check needs a tag in the row, the missing-tag
    check needs the row to have none. *)
Lemma checks_exclusive (policy : PolicyRule) (row : RegistryRow) :
  forbidden_fires policy row = true -> missing_fires policy row = false.
Proof.
  rewrite forbidden_fires_true. intros Hne.
  destruct (missing_fires policy row) eqn:Hm; [|done].
  apply missing_fires_true in Hm as [_ Hm]. set_solver.
Qed.

Lemma row_violations_length (policy : PolicyRule) (row : RegistryRow) :
  length (row_violations policy row) <= 1.
Proof.
  unfold row_violations. destruct (skipped policy row); simpl; [lia|].
  destruct (forbidden_fires policy row) eqn:Hf.
  - rewrite (checks_exclusive _ _ Hf). simpl. lia.
  - destruct (missing_fires policy row); simpl; lia.
Qed.

Lemma skipped_true (policy : PolicyRule) (row : RegistryRow) :
  skipped policy row = true
  <-> (exists ts, rule_applies_to_tables policy = Some ts /\ ts <> []
                  /\ row_table row ∉ ts)
      \/ (exists p, rule_table_name_prefix policy = Some p
                    /\ ~ exists rest, row_table row = p +:+ rest).
Proof.
  unfold skipped, applies_tables, name_prefix.
  rewrite orb_true_iff. f_equiv.
  - destruct (rule_applies_to_tables policy) as [[|t ts]|].
    + naive_solver.
    + rewrite andb_true_iff, PySetFacts.set_truthy_true, bool_decide_eq_true.
      unfold PySet.of_list. rewrite elem_of_list_to_set. split.
      * intros [_ Hnotin]. by exists (t :: ts).
      * intros (ts' & [= <-] & _ & Hnotin). split; [set_solver | done].
    + naive_solver.
  - destruct (rule_table_name_prefix policy) as [p|]; [|naive_solver].
    rewrite andb_true_iff, negb_true_iff, <- not_true_iff_false,
      PyStrFacts.startswith_spec, PyStrFacts.str_truthy_true.
    split.
    + intros [_ Hno]. by exists p.
    + intros (p' & [= <-] & Hno). split; [|done].
      intros ->. apply Hno. by exists (row_table row).
Qed.

Lemma without_id_row (policy : PolicyRule) (row : RegistryRow) :
  row_violations (without_id policy) row
  = map without_policy_id (row_violations policy row).
Proof.
  unfold row_violations.
  change (skipped (without_id policy) row) with (skipped policy row).
  change (forbidden_fires (without_id policy) row)
    with (forbidden_fires policy row).
  change (missing_fires (without_id policy) row)
    with (missing_fires policy row).
  destruct (skipped policy row); [done|].
  by destruct (forbidden_fires policy row), (missing_fires policy row).
Qed.

Lemma without_id_rows (policy : PolicyRule) (registry : Registry) :
  flat_map (row_violations (without_id policy)) registry
  = map without_policy_id (flat_map (row_violations policy) registry).
Proof.
  induction registry as [|row registry IH]; simpl; [done|].
  by rewrite map_app, IH, without_id_row.
Qed.

End PolicyFacts.

Module PolicyTheorems.
Import PolicyEngine PolicySpec PolicyFacts.

(** Scenario E of the specification: a row without tags under a rule that
    requires a tag. *)
Example scenario_E :
  evaluate_policies (doc [must_tag]) [untagged]
  = [ {| policy_id := Some "must_tag";
         table := "events";
         column := "payload";
         pii_tags := "";
         reason := "detected PII missing tag" |} ].
Proof. by vm_compute. Qed.

(** A cell that holds the empty string is not null: its tag set is the
    set of the empty string, and the missing-tag check does not fire. *)
Example empty_cell_is_not_untagged :
  evaluate_policies (doc [must_tag]) [mkRegistryRow "events" "payload" (Some "")]
  = [].
Proof. by vm_compute. Qed.

Example tags_are_split_and_sorted :
  evaluate_policies (doc [no_ssn])
    [mkRegistryRow "logs" "id" (Some "phone,national_id,email,phone")]
  = [ {| policy_id := Some "no_ssn";
         table := "logs";
         column := "id";
         pii_tags := "email,national_id,phone";
         reason := "forbidden tags present: national_id" |} ].
Proof. by vm_compute. Qed.

(** C1, as stated, fails: no policy and registry row make the evaluator
    emit two violations for the pair, because the forbidden-tag check
    needs the row to carry a tag and the missing-tag check needs it to
    carry none. *)
Lemma C1_never_two_violations :
  ~ exists (policy : PolicyRule) (row : RegistryRow),
      length (evaluate_policies (doc [policy]) [row]) = 2.
Proof.
  intros (policy & row & Hlen). rewrite evaluate_single in Hlen.
  pose proof (row_violations_length policy row). lia.
Qed.

(** C1 (amended): for a single PolicyRule and a single registry row the
    evaluator emits zero or one violation.  The forbidden-tag check and
    the missing-tag check never fire together; each of the three outcomes
    (nothing, one forbidden-tag violation, one missing-tag violation)
    occurs for some policy and row. *)
Theorem C1_zero_or_one_violation :
  (forall (policy : PolicyRule) (row : RegistryRow),
      forbidden_fires policy row && missing_fires policy row = false
      /\ length (evaluate_policies (doc [policy]) [row]) <= 1)
  /\ (exists policy row, evaluate_policies (doc [policy]) [row] = [])
  /\ (exists policy row,
        evaluate_policies (doc [policy]) [row]
        = [forbidden_violation policy row])
  /\ (exists policy row,
        evaluate_policies (doc [policy]) [row]
        = [missing_tag_violation policy row]).
Proof.
  split; [|split; [|split]].
  - intros policy row. split.
    + destruct (forbidden_fires policy row) eqn:Hf; [|done].
      by rewrite (checks_exclusive _ _ Hf).
    + rewrite evaluate_single. apply row_violations_length.
  - exists users_only, logs_email. by vm_compute.
  - exists no_ssn, logs_ssn. by vm_compute.
  - exists must_tag, untagged. by vm_compute.
Qed.

(** C2, as stated, fails: a rule without an [id] is evaluated against the
    registry like any other and a Violation list is returned; the
    violation carries a null [policy_id]. *)
Lemma C2_rule_without_id_is_evaluated :
  rule_id anonymous_rule = None
  /\ evaluate_policies (doc [anonymous_rule]) [users_email]
     = [ {| policy_id := None;
            table := "users";
            column := "email";
            pii_tags := "email";
            reason := "forbidden tags present: email" |} ].
Proof. split; [done | by vm_compute]. Qed.

(** C2 (amended): a PolicyRule that lacks an [id] is not rejected.  The
    evaluator does no validation: removing the [id] of every rule leaves
    the emitted violations, their number and their order unchanged, except
    that their [policy_id] is null. *)
Theorem C2_id_is_not_validated (policies : list PolicyRule)
    (registry : Registry) :
  evaluate_policies (doc (map without_id policies)) registry
  = map without_policy_id (evaluate_policies (doc policies) registry).
Proof.
  rewrite !evaluate_policies_in_order. simpl. unfold evaluate_in_order.
  induction policies as [|policy policies IH]; simpl; [done|].
  by rewrite map_app, IH, without_id_rows.
Qed.

(** C5: for an in-scope row whose tags meet the forbidden tags of the
    policy, the evaluator emits exactly one violation for the pair, at the
    pair's place in the output; its reason is the fixed prefix followed by
    the sorted, comma-joined intersection and its [pii_tags] the sorted,
    comma-joined tags of the row.  Scenario C is the instance with policy
    [no_ssn] and row [logs/ssn]. *)
Theorem C5_forbidden_tag_violation (policy : PolicyRule) (row : RegistryRow) :
  skipped policy row = false ->
  tags row ∩ forbidden policy <> ∅ ->
  exists (row_tags hits : list string),
    let v := {| policy_id := rule_id policy;
                table := row_table row;
                column := row_column row;
                pii_tags := PyStr.join "," row_tags;
                reason := "forbidden tags present: " +:+ PyStr.join "," hits |}
    in
    PySet.sorted_enumeration row_tags (tags row)
    /\ PySet.sorted_enumeration hits (tags row ∩ forbidden policy)
    /\ evaluate_policies (doc [policy]) [row] = [v]
    /\ (forall before after above below,
          evaluate_policies (doc (before ++ policy :: after))
                            (above ++ row :: below)
          = evaluate_policies (doc before) (above ++ row :: below)
            ++ evaluate_policies (doc [policy]) above
            ++ [v]
            ++ evaluate_policies (doc [policy]) below
            ++ evaluate_policies (doc after) (above ++ row :: below))
    /\ evaluate_policies (doc [no_ssn]) [logs_ssn]
       = [ {| policy_id := Some "no_ssn";
              table := "logs";
              column := "ssn";
              pii_tags := "national_id";
              reason := "forbidden tags present: national_id" |} ].
Proof.
  intros Hscope Hmeet.
  exists (PySet.sorted (tags row)),
         (PySet.sorted (tags row ∩ forbidden policy)).
  assert (row_violations policy row = [forbidden_violation policy row]) as Hrow.
  { unfold row_violations. rewrite Hscope.
    apply forbidden_fires_true in Hmeet as Hf. rewrite Hf.
    by rewrite (checks_exclusive _ _ Hf). }
  repeat split; try apply PySetFacts.sorted_is_enumeration.
  - by rewrite evaluate_single.
  - intros. by rewrite evaluate_split, Hrow.
Qed.

(** The theorem at scenario C. *)
Lemma C5_scenario_C :
  skipped no_ssn logs_ssn = false
  /\ tags logs_ssn ∩ forbidden no_ssn <> ∅
  /\ exists row_tags hits,
       PySet.sorted_enumeration row_tags (tags logs_ssn)
       /\ PySet.sorted_enumeration hits (tags logs_ssn ∩ forbidden no_ssn)
       /\ evaluate_policies (doc [no_ssn]) [logs_ssn]
          = [ {| policy_id := Some "no_ssn";
                 table := "logs";
                 column := "ssn";
                 pii_tags := PyStr.join "," row_tags;
                 reason := "forbidden tags present: "
                           +:+ PyStr.join "," hits |} ].
Proof.
  assert (skipped no_ssn logs_ssn = false) as Hscope by reflexivity.
  assert (tags logs_ssn ∩ forbidden no_ssn <> ∅) as Hmeet
    by (apply forbidden_fires_true; vm_compute; reflexivity).
  split; [exact Hscope|]. split; [exact Hmeet|].
  destruct (C5_forbidden_tag_violation no_ssn logs_ssn Hscope Hmeet)
    as (row_tags & hits & H1 & H2 & H3 & _).
  exists row_tags, hits. auto.
Defined.

(** C6, as stated, fails: a rule whose [applies_to_tables] is present and
    empty has an explicit table set of which no table is a member, yet a
    row of table "users" is evaluated and violates it. *)
Lemma C6_empty_table_list_filters_nothing :
  rule_applies_to_tables empty_scope = Some []
  /\ (row_table users_email ∉ ([] : list string))
  /\ evaluate_policies (doc [empty_scope]) [users_email]
     = [ {| policy_id := Some "nowhere";
            table := "users";
            column := "email";
            pii_tags := "email";
            reason := "forbidden tags present: email" |} ].
Proof. split; [done|]. split; [by apply not_elem_of_nil | by vm_compute]. Qed.

(** C6 (amended): a row is excluded from both checks exactly when
    [applies_to_tables] is set to a non-empty list of which the row's
    table is not a member, or [table_name_prefix] is set and the table
    name does not start with it; a row passes only when it satisfies
    every such filter.  An excluded row contributes no violation, alone
    or among other rows.  Scenario D: the rule scoped to "users" with
    forbidden tag "email" yields nothing for an email row of "logs". *)
Theorem C6_scope_filter (policy : PolicyRule) (row : RegistryRow) :
  (skipped policy row = true
   <-> (exists ts, rule_applies_to_tables policy = Some ts /\ ts <> []
                   /\ row_table row ∉ ts)
       \/ (exists p, rule_table_name_prefix policy = Some p
                     /\ ~ exists rest, row_table row = p +:+ rest))
  /\ (skipped policy row = true ->
      evaluate_policies (doc [policy]) [row] = []
      /\ forall above below,
           evaluate_policies (doc [policy]) (above ++ row :: below)
           = evaluate_policies (doc [policy]) (above ++ below))
  /\ evaluate_policies (doc [users_only]) [logs_email] = [].
Proof.
  split; [apply skipped_true|]. split; [|by vm_compute].
  intros Hskip.
  assert (row_violations policy row = []) as Hrow
    by (unfold row_violations; by rewrite Hskip).
  split; [by rewrite evaluate_single|].
  intros above below. rewrite !evaluate_one_policy, !flat_map_app. simpl.
  by rewrite Hrow.
Qed.

(** The theorem at scenario D, alone and after a row of "users". *)
Lemma C6_scenario_D :
  skipped users_only logs_email = true
  /\ evaluate_policies (doc [users_only]) [logs_email] = []
  /\ evaluate_policies (doc [users_only]) ([users_email] ++ logs_email :: [])
     = evaluate_policies (doc [users_only]) ([users_email] ++ []).
Proof.
  assert (skipped users_only logs_email = true) as Hskip by reflexivity.
  split; [exact Hskip|].
  destruct (C6_scope_filter users_only logs_email) as (_ & Hout & _).
  destruct (Hout Hskip) as [H1 H2]. split; [exact H1 | apply H2].
Defined.

(** C8: the evaluator is a function of its two inputs whose output lists
    the violations by policy in declaration order and, under each policy,
    by row in registry order.  The only run-dependent order in the code,
    the iteration order of the tag sets, does not reach the output: from
    any enumeration of the sets [sorted] builds the same [pii_tags] and
    [reason]. *)
Theorem C8_deterministic_and_ordered (policies : PolicyDoc)
    (registry : Registry) :
  evaluate_policies policies registry
  = evaluate_in_order (default [] (doc_policies policies)) registry
  /\ (forall policy row (l l' : list string),
        l ≡ₚ elements (tags row) ->
        l' ≡ₚ elements (tags row ∩ forbidden policy) ->
        forbidden_violation policy row
        = {| policy_id := rule_id policy;
             table := row_table row;
             column := row_column row;
             pii_tags := PyStr.join "," (PyStr.sorted l);
             reason := "forbidden tags present: "
                       +:+ PyStr.join "," (PyStr.sorted l') |}).
Proof.
  split; [apply evaluate_policies_in_order|].
  intros policy row l l' Hl Hl'. unfold forbidden_violation.
  by rewrite (PySetFacts.sorted_any_order _ _ Hl),
             (PySetFacts.sorted_any_order _ _ Hl').
Qed.

(** The theorem at two rules and two rows, and at the row tags listed in
    an order that is not the sorted one. *)
Lemma C8_two_runs :
  evaluate_policies (doc [no_ssn; must_tag]) [untagged; logs_ssn]
  = [ forbidden_violation no_ssn logs_ssn;
      missing_tag_violation must_tag untagged ]
  /\ forbidden_violation no_ssn
       (mkRegistryRow "logs" "ssn" (Some "phone,national_id"))
     = {| policy_id := Some "no_ssn";
          table := "logs";
          column := "ssn";
          pii_tags := PyStr.join "," (PyStr.sorted ["phone"; "national_id"]);
          reason := "forbidden tags present: "
                    +:+ PyStr.join "," (PyStr.sorted ["national_id"]) |}.
Proof.
  split.
  - rewrite (proj1 (C8_deterministic_and_ordered _ _)). by vm_compute.
  - apply (proj2 (C8_deterministic_and_ordered (doc []) [])).
    + vm_compute. first [reflexivity | apply perm_swap].
    + vm_compute. reflexivity.
Defined.

End PolicyTheorems.

(** ** The matcher *)

Module ReFacts.
Import Re.

Section Spans.
Variable text : list ascii.

Lemma spans_star_one (r : regex) (i j : nat) :
  spans text r i j -> spans text (Star r) i j.
Proof. intros H. eapply span_star_more; [exact H | apply span_star_stop]. Qed.

Lemma spans_star_app (r : regex) (i j k : nat) :
  spans text (Star r) i j -> spans text (Star r) j k -> spans text (Star r) i k.
Proof.
  intros Hij. remember (Star r) as sr eqn:Esr.
  induction Hij; try discriminate; [done|].
  injection Esr as ->. intros Hk. eapply span_star_more; eauto.
Qed.

(** A match does not move backwards, and it ends inside the subject unless
    it is empty. *)
Lemma spans_bounds (r : regex) (i j : nat) :
  spans text r i j -> i <= j /\ (j = i \/ j <= length text).
Proof.
  induction 1 as [i|cls i c Hc _|r1 r2 i j k _ [? ?] _ [? ?]|r1 r2 i j _ ?
                 |r1 r2 i j _ ?|r i|r i j k _ [? ?] _ [? ?]| |i _|i _];
    try lia.
  apply lookup_lt_Some in Hc. lia.
Qed.

(** The iteration of the [Star] case. *)
Definition star_step (r : regex) (acc : gset nat) : gset nat :=
  acc ∪ ends text r acc.

Definition star_iter (r : regex) (n : nat) (from : gset nat) : gset nat :=
  Nat.iter n (star_step r) from.

Lemma ends_star (r : regex) (from : gset nat) :
  ends text (Star r) from = star_iter r (S (length text)) from.
Proof. reflexivity. Qed.

Lemma star_iter_S (r : regex) (n : nat) (from : gset nat) :
  star_iter r (S n) from
  = star_iter r n from ∪ ends text r (star_iter r n from).
Proof. reflexivity. Qed.

Lemma star_iter_grows (r : regex) (n : nat) (from : gset nat) :
  star_iter r n from ⊆ star_iter r (S n) from.
Proof. rewrite star_iter_S. apply union_subseteq_l. Qed.

Lemma star_iter_from (r : regex) (n : nat) (from : gset nat) :
  from ⊆ star_iter r n from.
Proof.
  induction n as [|n IH]; [done|].
  etransitivity; [exact IH | apply star_iter_grows].
Qed.

Section Star.
Variable r : regex.
Hypothesis ends_r :
  forall from j, j ∈ ends text r from <-> exists i, i ∈ from /\ spans text r i j.

(** Every position the iteration reaches is a start position or a position
    of the subject. *)
Lemma star_iter_bound (n : nat) (from : gset nat) :
  star_iter r n from ⊆ from ∪ list_to_set (seq 0 (S (length text))).
Proof.
  induction n as [|n IH]; [apply union_subseteq_l|].
  rewrite star_iter_S. apply union_least; [exact IH|].
  intros j (i & Hi & Hsp)%ends_r.
  apply spans_bounds in Hsp as [_ [->|Hj]]; [by apply IH|].
  apply elem_of_union_r, elem_of_list_to_set, elem_of_seq. lia.
Qed.

Lemma star_iter_stable_step (n : nat) (from : gset nat) :
  star_iter r (S n) from = star_iter r n from ->
  star_iter r (S (S n)) from = star_iter r (S n) from.
Proof.
  intros Heq. by rewrite (star_iter_S r (S n)), Heq, <- star_iter_S.
Qed.

(** Until it is stable, every round adds a position. *)
Lemma star_iter_progress (n : nat) (from : gset nat) :
  star_iter r (S n) from = star_iter r n from
  \/ size from + S n <= size (star_iter r (S n) from).
Proof.
  induction n as [|n IH].
  - destruct (decide (star_iter r 1 from = star_iter r 0 from)) as [|Hne];
      [by left|right].
    assert (star_iter r 0 from ⊂ star_iter r 1 from) as Hlt.
    { split; [apply star_iter_grows|]. intros Hsub. apply Hne.
      apply set_eq. intros x. split; [apply Hsub | apply star_iter_grows]. }
    apply subset_size in Hlt. change (star_iter r 0 from) with from in Hlt. lia.
  - destruct IH as [Hst|Hsz]; [left; by apply star_iter_stable_step|].
    destruct (decide (star_iter r (S (S n)) from = star_iter r (S n) from))
      as [|Hne]; [by left|right].
    assert (star_iter r (S n) from ⊂ star_iter r (S (S n)) from) as Hlt.
    { split; [apply star_iter_grows|]. intros Hsub. apply Hne.
      apply set_eq. intros x. split; [apply Hsub | apply star_iter_grows]. }
    apply subset_size in Hlt. lia.
Qed.

(** After as many rounds as the subject has positions, nothing is added. *)
Lemma star_iter_closed (from : gset nat) :
  ends text r (ends text (Star r) from) ⊆ ends text (Star r) from.
Proof.
  rewrite ends_star. set (n := S (length text)).
  assert (star_iter r (S n) from = star_iter r n from) as Hst.
  { destruct (star_iter_progress n from) as [|Hsz]; [done|exfalso].
    pose proof (subseteq_size _ _ (star_iter_bound (S n) from)) as Hle.
    pose proof (size_union_alt from
                  (list_to_set (seq 0 (S (length text))) : gset nat)) as Hun.
    assert (size (list_to_set (seq 0 (S (length text))) ∖ from : gset nat)
            <= S (length text)) as Hseq.
    { etransitivity; [apply subseteq_size, subseteq_difference_l; reflexivity|].
      rewrite size_list_to_set by apply NoDup_seq. by rewrite length_seq. }
    subst n. lia. }
  intros j Hj. rewrite <- Hst, star_iter_S. by apply elem_of_union_r.
Qed.

Lemma ends_star_spans (from : gset nat) (j : nat) :
  j ∈ ends text (Star r) from <-> exists i, i ∈ from /\ spans text (Star r) i j.
Proof.
  split.
  - rewrite ends_star. generalize (S (length text)) as n. intros n. revert j.
    induction n as [|n IH]; intros j.
    + intros Hj. exists j. split; [done | apply span_star_stop].
    + rewrite star_iter_S.
      intros [Hj|(i' & Hi' & Hsp)%ends_r]%elem_of_union; [by apply IH|].
      destruct (IH _ Hi') as (i & Hi & Hstar). exists i. split; [done|].
      eapply spans_star_app; [exact Hstar | by apply spans_star_one].
  - intros (i & Hi & Hsp).
    assert (i ∈ ends text (Star r) from) as Hin
      by (rewrite ends_star; by apply star_iter_from).
    clear Hi. remember (Star r) as sr eqn:Esr.
    induction Hsp as [| | | | | |r0 i j k Hstep _ Hrest IH| | |];
      try discriminate; [done|].
    injection Esr as Er. subst r0. apply IH; [done|].
    apply star_iter_closed, ends_r. eauto.
Qed.

End Star.

(** The matcher computes the relation. *)
Theorem ends_spans (r : regex) (from : gset nat) (j : nat) :
  j ∈ ends text r from <-> exists i, i ∈ from /\ spans text r i j.
Proof.
  revert from j.
  induction r as [|cls|r1 IH1 r2 IH2|r1 IH1 r2 IH2|r IH| | |]; intros from j.
  - simpl. split.
    + intros Hj. exists j. split; [done | constructor].
    + intros (i & Hi & Hsp). by inversion Hsp; subst.
  - simpl. rewrite elem_of_set_omap. unfold advance. split.
    + intros (i & Hi & Hadv). exists i. split; [done|].
      destruct (text !! i) as [c|] eqn:Hc; [|done].
      destruct (cls c) eqn:Hcls; [|done].
      injection Hadv as <-. by econstructor.
    + intros (i & Hi & Hsp). inversion Hsp as [|? ? c Hc Hcls| | | | | | | |]; subst.
      exists i. split; [done|]. by rewrite Hc, Hcls.
  - simpl. rewrite IH2. split.
    + intros (k & (i & Hi & H1)%IH1 & H2). exists i. split; [done|].
      by econstructor.
    + intros (i & Hi & Hsp). inversion Hsp as [| |? ? ? k ? H1 H2| | | | | | |]; subst.
      exists k. split; [|done]. apply IH1. eauto.
  - simpl. rewrite elem_of_union, IH1, IH2. split.
    + intros [(i & Hi & Hsp)|(i & Hi & Hsp)]; exists i; (split; [done|]).
      * by apply span_alt_l.
      * by apply span_alt_r.
    + intros (i & Hi & Hsp). inversion Hsp; subst; eauto.
  - by apply ends_star_spans.
  - simpl. rewrite elem_of_filter. split.
    + intros [-> Hj]. exists 0. split; [done | constructor].
    + intros (i & Hi & Hsp). by inversion Hsp; subst.
  - simpl. rewrite elem_of_filter. split.
    + intros [Hend Hj]. exists j. split; [done | by constructor].
    + intros (i & Hi & Hsp). by inversion Hsp; subst.
  - simpl. rewrite elem_of_filter. split.
    + intros [Hb Hj]. exists j. split; [done | by constructor].
    + intros (i & Hi & Hsp). by inversion Hsp; subst.
Qed.

End Spans.

(** [pattern.match(s)] succeeds when the pattern matches from position 0. *)
Lemma match_spans (pattern : regex) (s : string) :
  match_ pattern s = true
  <-> exists j, spans (list_ascii_of_string s) pattern 0 j.
Proof.
  unfold match_. rewrite bool_decide_eq_true. split.
  - intros [j (i & ->%elem_of_singleton & Hsp)%ends_spans]%set_choose_L. eauto.
  - intros [j Hsp]. apply (non_empty_inhabited_L j), ends_spans.
    exists 0. split; [by apply elem_of_singleton | done].
Qed.

(** [re.search(pattern, s)] succeeds when the pattern matches from some
    position of the subject. *)
Lemma search_spans (pattern : regex) (s : string) :
  let text := list_ascii_of_string s in
  search pattern s = true
  <-> exists i j, i <= length text /\ spans text pattern i j.
Proof.
  intros text. unfold search. fold text. rewrite bool_decide_eq_true. split.
  - intros [j (i & Hi & Hsp)%ends_spans]%set_choose_L.
    apply elem_of_list_to_set, elem_of_seq in Hi. exists i, j. split; [lia|done].
  - intros (i & j & Hi & Hsp). apply (non_empty_inhabited_L j), ends_spans.
    exists i. split; [|done]. apply elem_of_list_to_set, elem_of_seq. lia.
Qed.

(** [pattern.fullmatch(s)] succeeds when the pattern matches all of [s]. *)
Lemma fullmatch_spans (pattern : regex) (s : string) :
  let text := list_ascii_of_string s in
  fullmatch pattern s = true <-> spans text pattern 0 (length text).
Proof.
  intros text. unfold fullmatch. fold text.
  rewrite bool_decide_eq_true, ends_spans. split.
  - by intros (i & ->%elem_of_singleton & Hsp).
  - intros Hsp. exists 0. split; [by apply elem_of_singleton | done].
Qed.

(** ** Anchored patterns *)

Lemma at_end_spec (text : list ascii) (i : nat) :
  at_end text i = true
  <-> i = length text
      \/ (S i = length text /\ text !! i = Some (ascii_of_nat 10)).
Proof.
  unfold at_end.
  rewrite orb_true_iff, andb_true_iff, !Nat.eqb_eq, bool_decide_eq_true.
  done.
Qed.

Lemma ends_anchored (text : list ascii) (body : regex) :
  ends text (anchored body) {[ 0 ]}
  = filter (fun i => at_end text i = true) (ends text body {[ 0 ]}).
Proof.
  change (ends text (anchored body) {[ 0 ]})
    with (filter (fun i => at_end text i = true)
            (ends text body (filter (fun i => i = 0) {[ 0 ]}))).
  rewrite (filter_singleton_True_L (C:=gset nat)); [done | apply _ | done].
Qed.

(** What [pattern.match] accepts for [^ body $]: the body matches the
    subject from its start to its end, or to the line feed that is its last
    character. *)
Lemma match_anchored (body : regex) (s : string) :
  let text := list_ascii_of_string s in
  match_ (anchored body) s = true
  <-> exists j, spans text body 0 j
                /\ (j = length text
                    \/ (S j = length text
                        /\ text !! j = Some (ascii_of_nat 10))).
Proof.
  intros text. unfold match_. fold text.
  rewrite bool_decide_eq_true, ends_anchored. split.
  - intros [j Hj]%set_choose_L. apply elem_of_filter in Hj as [Hend Hj].
    apply ends_spans in Hj as (i & ->%elem_of_singleton & Hsp).
    exists j. split; [done|]. by apply at_end_spec.
  - intros (j & Hsp & Hend). apply (non_empty_inhabited_L j).
    apply elem_of_filter. split; [by apply at_end_spec|].
    apply ends_spans. exists 0. split; [by apply elem_of_singleton | done].
Qed.

(** What [pattern.fullmatch] accepts for [^ body $]: the body matches the
    whole subject. *)
Lemma fullmatch_anchored (body : regex) (s : string) :
  let text := list_ascii_of_string s in
  fullmatch (anchored body) s = true <-> spans text body 0 (length text).
Proof.
  intros text. unfold fullmatch. fold text.
  rewrite bool_decide_eq_true, ends_anchored, elem_of_filter, at_end_spec,
    ends_spans.
  split.
  - by intros [_ (i & ->%elem_of_singleton & Hsp)].
  - intros Hsp. split; [by left|]. exists 0.
    split; [by apply elem_of_singleton | done].
Qed.

End ReFacts.

(** ** The tagging engine *)

Module TaggingFacts.
Import TaggingEngine ClassifierSpec.

Section FirstTag.
Context {P : Type}.
Variable hit : P -> bool.

Lemma first_tag_Some (catalog : list (string * P)) (tag : string) :
  first_tag hit catalog = Some tag
  <-> exists before pattern after,
        catalog = before ++ (tag, pattern) :: after
        /\ hit pattern = true
        /\ Forall (fun entry => hit entry.2 = false) before.
Proof.
  induction catalog as [|[t p] catalog IH]; simpl.
  - split; [done|]. intros (before & ? & ? & Heq & _). by destruct before.
  - destruct (hit p) eqn:Hp.
    + split.
      * intros [= <-]. exists [], p, catalog. by repeat split.
      * intros ([|[t' p'] before] & pattern & after & Heq & Hhit & Hbefore).
        -- by injection Heq as -> ->.
        -- injection Heq as -> -> ->. apply Forall_cons in Hbefore as [Hp' _].
           simpl in Hp'. congruence.
    + rewrite IH. split.
      * intros (before & pattern & after & -> & Hhit & Hbefore).
        exists ((t, p) :: before), pattern, after.
        repeat split; [done|]. by apply Forall_cons.
      * intros ([|[t' p'] before] & pattern & after & Heq & Hhit & Hbefore).
        -- injection Heq as -> -> ->. congruence.
        -- injection Heq as -> -> ->. apply Forall_cons in Hbefore as [_ Hb].
           by exists before, pattern, after.
Qed.

Lemma first_tag_None (catalog : list (string * P)) :
  first_tag hit catalog = None
  <-> Forall (fun entry => hit entry.2 = false) catalog.
Proof.
  induction catalog as [|[t p] catalog IH]; simpl.
  - split; [by constructor | done].
  - rewrite Forall_cons. simpl. destruct (hit p); [naive_solver|].
    rewrite IH. naive_solver.
Qed.

Lemma first_tag_elem_of (catalog : list (string * P)) (tag : string) :
  first_tag hit catalog = Some tag -> tag ∈ map fst catalog.
Proof.
  intros (before & pattern & after & -> & _)%first_tag_Some.
  rewrite map_app. simpl. set_solver.
Qed.
End FirstTag.

Lemma detect_by_name_tag (col tag : string) :
  detect_by_name col = Some tag ->
  tag ∈ ["email"; "phone"; "ip"; "dob"; "name"; "national_id"].
Proof. apply first_tag_elem_of. Qed.

Lemma detect_by_values_tag (series : Series) (tag : string) :
  detect_by_values series = Some tag ->
  tag ∈ ["email"; "phone"; "ip"; "dob"; "national_id"].
Proof.
  unfold detect_by_values.
  destruct (dropna_astype_str_head 50 series); [done|].
  apply first_tag_elem_of.
Qed.

Lemma detect_by_name_truthy (col tag : string) :
  detect_by_name col = Some tag -> PyStr.truthy tag = true.
Proof.
  intros Hin%detect_by_name_tag.
  repeat (apply elem_of_cons in Hin as [->|Hin]; [done|]).
  by apply elem_of_nil in Hin.
Qed.

Lemma detect_by_values_truthy (series : Series) (tag : string) :
  detect_by_values series = Some tag -> PyStr.truthy tag = true.
Proof.
  intros Hin%detect_by_values_tag.
  repeat (apply elem_of_cons in Hin as [->|Hin]; [done|]).
  by apply elem_of_nil in Hin.
Qed.

Lemma names_with_spaces_true (series : Series) :
  names_with_spaces series = true
  <-> 5 <= count_if (PyStr.contains_char " ") (dropna_astype_str_head 20 series).
Proof.
  unfold names_with_spaces.
  rewrite andb_true_iff, negb_true_iff, bool_decide_eq_false, Nat.leb_le.
  split; [naive_solver|]. intros Hfive. split; [|done].
  intros Hnil. rewrite Hnil in Hfive. simpl in Hfive. lia.
Qed.

Lemma classify_classified (col : string) (series : Series) :
  classified col series (classify col series).
Proof.
  unfold classify, name_step, value_step, fallback_step.
  destruct (detect_by_name col) as [n|] eqn:Hn.
  - rewrite (detect_by_name_truthy _ _ Hn). simpl.
    destruct (detect_by_values series) as [v|] eqn:Hv.
    + rewrite (detect_by_values_truthy _ _ Hv). simpl.
      destruct (decide (n = v)) as [<-|Hne].
      * rewrite (bool_decide_eq_false_2 (n ∉ [n])); simpl.
        -- apply by_name_only; auto.
        -- intros Hnotin. by apply Hnotin, list_elem_of_singleton.
      * rewrite (bool_decide_eq_true_2 (v ∉ [n])); simpl.
        -- by apply by_name_and_value.
        -- by intros ->%list_elem_of_singleton.
    + simpl. apply by_name_only; auto.
  - destruct (detect_by_values series) as [v|] eqn:Hv.
    + rewrite (detect_by_values_truthy _ _ Hv). simpl.
      by apply by_value_only.
    + simpl. destruct (decide (series_dtype series = object)) as [Hobj|Hobj].
      * rewrite (bool_decide_eq_true_2 _ Hobj).
        destruct (names_with_spaces series) eqn:Hsp.
        -- apply by_fallback; try done. by apply names_with_spaces_true.
        -- apply untagged; try done. right.
           apply Nat.nle_gt. intros Hfive%names_with_spaces_true. congruence.
      * rewrite (bool_decide_eq_false_2 _ Hobj). apply untagged; auto.
Qed.

Lemma scan_column_appends (table_name : string) (acc : list ColumnPIIResult)
    (entry : string * Series) :
  scan_column table_name acc entry = acc ++ column_rows table_name entry.
Proof.
  destruct entry as [col series]. unfold scan_column, column_rows. simpl.
  destruct (classify_classified col series); simpl;
    by rewrite ?app_nil_r.
Qed.

Lemma scan_dataframe_rows (df : DataFrame) (table_name : string) :
  scan_dataframe df table_name = flat_map (column_rows table_name) df.
Proof.
  unfold scan_dataframe.
  by rewrite (fold_left_appends _ _ (scan_column_appends table_name)).
Qed.

(** Every row of a scan is the row of one of the columns. *)
Lemma scan_dataframe_Forall (Q : string -> Series -> ColumnPIIResult -> Prop)
    (df : DataFrame) (table_name : string) :
  (forall col series r,
      (col, series) ∈ df -> column_rows table_name (col, series) = [r] ->
      Q col series r) ->
  Forall (fun r => exists col series,
              (col, series) ∈ df /\ column r = col /\ Q col series r)
         (scan_dataframe df table_name).
Proof.
  intros HQ. rewrite scan_dataframe_rows, Forall_forall.
  intros r Hr.
  apply list_elem_of_In, in_flat_map in Hr as ([col series] & Hin & Hr).
  apply list_elem_of_In in Hin.
  assert (column_rows table_name (col, series) = [r]) as Hrow.
  { revert Hr. unfold column_rows.
    destruct (tags (classify (col, series).1 (col, series).2)); simpl;
      naive_solver. }
  exists col, series. repeat split; [done | | by eapply HQ].
  revert Hrow. unfold column_rows.
  destruct (tags (classify (col, series).1 (col, series).2));
    [done | by intros [= <-]].
Qed.

Lemma column_rows_inv (table_name col : string) (series : Series)
    (r : ColumnPIIResult) :
  column_rows table_name (col, series) = [r] ->
  tags (classify col series) <> []
  /\ r = {| table := table_name;
            column := col;
            detected_tags := PyStr.sorted (tags (classify col series));
            detection_reason :=
              PyStr.join "," (reason_parts (classify col series)) |}.
Proof.
  unfold column_rows. simpl.
  destruct (tags (classify col series)); [done|]. by intros [= <-].
Qed.

Lemma classify_tags_NoDup (col : string) (series : Series) :
  NoDup (tags (classify col series)).
Proof.
  destruct (classify_classified col series); simpl;
    repeat (constructor; try set_solver).
Qed.

Lemma classify_lengths (col : string) (series : Series) :
  length (reason_parts (classify col series))
  = length (tags (classify col series)).
Proof. by destruct (classify_classified col series). Qed.

Lemma classify_reason (col : string) (series : Series) :
  tags (classify col series) <> [] ->
  let joined := PyStr.join "," (reason_parts (classify col series)) in
  reason_parts (classify col series) <> []
  /\ joined <> "n/a" /\ joined <> "".
Proof. by destruct (classify_classified col series). Qed.

Lemma fallback_step_tagged (series : Series) (st : ColumnState) :
  tags st <> [] -> fallback_step series st = st.
Proof.
  intros Hne. unfold fallback_step.
  by rewrite (bool_decide_eq_false_2 _ Hne).
Qed.

Lemma tagged_before_fallback (col : string) (series : Series) :
  detect_by_name col <> None \/ detect_by_values series <> None ->
  tags (value_step series
          (name_step col {| tags := []; reason_parts := [] |})) <> [].
Proof.
  unfold name_step, value_step. intros Hfound.
  destruct (detect_by_name col) as [n|] eqn:Hn.
  - rewrite (detect_by_name_truthy _ _ Hn).
    destruct (detect_by_values series) as [v|]; [|done].
    by destruct (PyStr.truthy v && bool_decide (v ∉ tags _)).
  - destruct (detect_by_values series) as [v|] eqn:Hv; [|naive_solver].
    by rewrite (detect_by_values_truthy _ _ Hv).
Qed.

End TaggingFacts.

Module TaggingTheorems.
Import TaggingEngine ClassifierSpec TaggingFacts.

(** The model on the inputs of [tests/test_tagging_engine.py] and of
    scenarios A and B of the specification. *)
Example detect_by_name_examples :
  map detect_by_name
    ["email"; "user_email"; "e_mail"; "contact_email"; "phone"; "mobile";
     "ip"; "ip_address"; "ip-address"; "username"; "user_id";
     "UserEmail"; "IpAddress"; "date_of_birth"; "full_name"; "ssn"]
  = [Some "email"; Some "email"; Some "email"; Some "email"; Some "phone";
     Some "phone"; Some "ip"; Some "ip"; Some "ip"; None; None;
     Some "email"; Some "ip"; Some "dob"; Some "name"; Some "national_id"].
Proof. by vm_compute. Qed.

(** [_] is a word character, so [\bphone\b] does not match inside
    phone_number; the unanchored [ip] matches inside description. *)
Example detect_by_name_inside_words :
  map detect_by_name ["phone_number"; "PHONE_NUMBER"; "description"]
  = [None; None; Some "ip"].
Proof. by vm_compute. Qed.

(** The phone pattern comes before the ip, dob and national_id patterns
    and also matches dotted quads, ISO dates and dashed SSNs. *)
Example detect_by_values_examples :
  map (fun values => detect_by_values (text_column values))
    [ ["test@example.com"; "user@domain.com"; "another@test.co"];
      ["192.168.1.1"; "10.0.0.1"; "172.16.254.1"];
      ["1990-01-01"; "1985-12-31"; "2000-06-15"];
      ["12/31/1990"; "01/02/2000"; "03/04/2001"];
      ["123-45-6789"; "987-65-4321"; "456-78-9012"];
      ["1.2.3.4"; "5.6.7.8"; "9.10.11.12"];
      ["apple"; "banana"; "orange"];
      [] ]
  = [Some "email"; Some "phone"; Some "phone"; Some "dob"; Some "phone";
     Some "ip"; None; None].
Proof. by vm_compute. Qed.

Example scenario_A :
  classify "user_email" (text_column ["x"; "y"; "z"])
  = {| tags := ["email"]; reason_parts := ["name:email"] |}.
Proof. by vm_compute. Qed.

Example scenario_B :
  classify "contact_field" email_values
  = {| tags := ["email"]; reason_parts := ["value:email"] |}.
Proof. by vm_compute. Qed.

Example scan_two_tags :
  scan_dataframe [("ip_address", ip_values);
                  ("visits", {| series_dtype := int64;
                                series_cells := [Some "1"; None; Some "3"] |});
                  ("customer", full_names)] "users"
  = [ {| table := "users"; column := "ip_address";
         detected_tags := ["ip"; "phone"];
         detection_reason := "name:ip,value:phone" |};
      {| table := "users"; column := "customer";
         detected_tags := ["name"];
         detection_reason := "heuristic:name_with_spaces" |} ].
Proof. by vm_compute. Qed.

(** C3, as stated, fails: five text values that each contain a TAB, a
    whitespace character, in a column that neither the name nor the value
    detection tags, do not get the "name" tag; the column is left out of
    the scan. *)
Lemma C3_tab_is_not_counted :
  detect_by_name "notes" = None
  /\ detect_by_values tabbed_notes = None
  /\ series_dtype tabbed_notes = object
  /\ 5 <= count_if PyStr.contains_whitespace
             (dropna_astype_str_head 20 tabbed_notes)
  /\ tags (classify "notes" tabbed_notes) = []
  /\ scan_dataframe [("notes", tabbed_notes)] "customers" = [].
Proof. repeat split; by vm_compute. Qed.

(** C3 (amended): for a column that neither name detection nor value
    detection tagged and whose dtype is [object], the fallback assigns the
    "name" tag, with the marker "heuristic:name_with_spaces", exactly when
    at least 5 of the first 20 non-null values contain a space character
    (U+0020); otherwise the column stays untagged.  When name or value
    detection found a tag the fallback step changes nothing. *)
Theorem C3_fallback_counts_spaces (col : string) (series : Series) :
  let sampled := dropna_astype_str_head 20 series in
  let before :=
    value_step series (name_step col {| tags := []; reason_parts := [] |}) in
  (detect_by_name col = None ->
   detect_by_values series = None ->
   series_dtype series = object ->
   ("name" ∈ tags (classify col series)
    <-> 5 <= count_if (PyStr.contains_char " ") sampled)
   /\ (5 <= count_if (PyStr.contains_char " ") sampled ->
       classify col series
       = {| tags := ["name"];
            reason_parts := ["heuristic:name_with_spaces"] |})
   /\ (count_if (PyStr.contains_char " ") sampled < 5 ->
       classify col series = {| tags := []; reason_parts := [] |}))
  /\ (detect_by_name col <> None \/ detect_by_values series <> None ->
      fallback_step series before = before
      /\ "heuristic:name_with_spaces" ∉ reason_parts (classify col series)).
Proof.
  intros sampled before. split.
  - intros Hn Hv Hobj.
    pose proof (classify_classified col series) as Hc.
    inversion Hc as [n ? ?|n v ? ? ?|v ? ?|_ _ _ Hfive|_ _ Hfew]; try congruence.
    + repeat split; try done.
      * intros _. apply list_elem_of_here.
      * fold sampled in Hfive. lia.
    + destruct Hfew as [?|Hfew]; [done|]. fold sampled in Hfew.
      repeat split; try done; try lia.
      intros []%elem_of_nil.
  - intros Hfound.
    assert (fallback_step series before = before) as Hsame
      by by apply fallback_step_tagged, tagged_before_fallback.
    split; [done|].
    pose proof (classify_classified col series) as Hc.
    inversion Hc as [n ? ?|n v ? ? ?|v ? ?|? ? _ _|? ? _]; simpl;
      try (destruct Hfound; congruence);
      rewrite ?not_elem_of_cons; repeat split;
        try discriminate; apply not_elem_of_nil.
Qed.

(** The theorem at a column of full names, which the fallback tags, and
    at a column that name and value detection tag. *)
Lemma C3_full_names :
  detect_by_name "customer" = None
  /\ detect_by_values full_names = None
  /\ series_dtype full_names = object
  /\ 5 <= count_if (PyStr.contains_char " ")
             (dropna_astype_str_head 20 full_names)
  /\ classify "customer" full_names
     = {| tags := ["name"]; reason_parts := ["heuristic:name_with_spaces"] |}
  /\ (detect_by_name "ip_address" <> None
      \/ detect_by_values ip_values <> None)
  /\ "heuristic:name_with_spaces"
       ∉ reason_parts (classify "ip_address" ip_values).
Proof.
  assert (detect_by_name "customer" = None) as Hn by (by vm_compute).
  assert (detect_by_values full_names = None) as Hv by (by vm_compute).
  assert (series_dtype full_names = object) as Hobj by reflexivity.
  assert (5 <= count_if (PyStr.contains_char " ")
                 (dropna_astype_str_head 20 full_names)) as Hfive
    by (vm_compute; lia).
  assert (detect_by_name "ip_address" <> None
          \/ detect_by_values ip_values <> None) as Hfound
    by (left; by vm_compute).
  split; [exact Hn|]. split; [exact Hv|]. split; [exact Hobj|].
  split; [exact Hfive|]. split; [|split; [exact Hfound|]].
  - apply (proj1 (C3_fallback_counts_spaces "customer" full_names));
      assumption.
  - apply (proj2 (C3_fallback_counts_spaces "ip_address" ip_values) Hfound).
Defined.

(** C4, as stated, fails: none of three sampled values that end in a line
    feed is matched in full by any value pattern, so every tag has 2 or
    fewer full-string matches, and yet value detection returns "email". *)
Lemma C4_final_newline_is_matched :
  (forall tag pattern,
      (tag, pattern) ∈ PII_VALUE_REGEXES ->
      count_if (Re.fullmatch pattern)
        (dropna_astype_str_head 50 newline_emails) = 0)
  /\ detect_by_values newline_emails = Some "email".
Proof.
  split; [|by vm_compute].
  intros tag pattern Hin.
  repeat (apply elem_of_cons in Hin as [[= -> ->]|Hin]; [by vm_compute|]).
  by apply elem_of_nil in Hin.
Qed.

(** C4 (amended): value detection looks only at the first 50 non-null
    values as text.  Walking the value patterns in catalog order, it counts
    for each tag the sampled values that the tag's pattern [^ body $]
    matches, that is the values whose whole text, or whose text up to a
    final line feed, is matched by the body, and returns the first tag that
    reaches 3; when every pattern matches 2 or fewer of the sampled values
    there is no value-derived tag. *)
Theorem C4_value_detection_threshold (series : Series) :
  let sample := dropna_astype_str_head 50 series in
  (exists rest,
      omap (fun cell => cell) (series_cells series) = sample ++ rest
      /\ length sample <= 50
      /\ (length sample < 50 -> rest = []))
  /\ (forall other : Series,
        dropna_astype_str_head 50 other = sample ->
        detect_by_values other = detect_by_values series)
  /\ (forall tag : string,
        detect_by_values series = Some tag
        <-> exists before pattern after,
              PII_VALUE_REGEXES = before ++ (tag, pattern) :: after
              /\ 3 <= matches pattern sample
              /\ Forall (fun entry => matches entry.2 sample < 3) before)
  /\ (forall tag pattern,
        (tag, pattern) ∈ PII_VALUE_REGEXES ->
        exists body,
          pattern = Re.anchored body
          /\ forall v : string,
               let text := list_ascii_of_string v in
               Re.match_ pattern v = true
               <-> exists j,
                     Re.spans text body 0 j
                     /\ (j = length text
                         \/ (S j = length text
                             /\ text !! j = Some (ascii_of_nat 10))))
  /\ ((forall tag pattern,
          (tag, pattern) ∈ PII_VALUE_REGEXES -> matches pattern sample <= 2) ->
      detect_by_values series = None).
Proof.
  intros sample.
  assert (detect_by_values series
          = first_tag (fun pattern => (3 <=? matches pattern sample)%nat)
              PII_VALUE_REGEXES) as Hloop.
  { unfold detect_by_values. fold sample. by destruct sample. }
  split; [|split; [|split; [|split]]].
  - exists (drop 50 (omap (fun cell => cell) (series_cells series))).
    unfold sample, dropna_astype_str_head.
    split; [by rewrite take_drop|]. rewrite length_take. split; [lia|].
    intros Hshort. apply drop_ge. lia.
  - intros other Hother. unfold detect_by_values. fold sample.
    by rewrite Hother.
  - intros tag. rewrite Hloop, first_tag_Some.
    split; intros (before & pattern & after & Hcat & Hhit & Hbefore);
      exists before, pattern, after; (split; [done|]).
    + split; [by apply Nat.leb_le|].
      eapply Forall_impl; [exact Hbefore|].
      intros entry Hlow. by apply Nat.leb_gt.
    + split; [by apply Nat.leb_le|].
      eapply Forall_impl; [exact Hbefore|].
      intros entry Hlow. by apply Nat.leb_gt.
  - intros tag pattern Hin.
    repeat (apply elem_of_cons in Hin as [[= -> ->]|Hin];
            [eexists; split; [reflexivity|];
             intros v; apply ReFacts.match_anchored|]).
    by apply elem_of_nil in Hin.
  - intros Hlow. rewrite Hloop, first_tag_None, Forall_forall.
    intros [tag pattern] Hin. apply Nat.leb_gt.
    specialize (Hlow tag pattern Hin). cbn [snd]. lia.
Qed.

(** The theorem at a sample in which the email pattern matches twice. *)
Lemma C4_two_matches_are_not_enough :
  (forall tag pattern,
      (tag, pattern) ∈ PII_VALUE_REGEXES ->
      matches pattern
        (dropna_astype_str_head 50 (text_column ["a@b.com"; "c@d.com"; "x"]))
      <= 2)
  /\ detect_by_values (text_column ["a@b.com"; "c@d.com"; "x"]) = None
  /\ detect_by_values email_values = Some "email".
Proof.
  assert (forall tag pattern,
             (tag, pattern) ∈ PII_VALUE_REGEXES ->
             matches pattern
               (dropna_astype_str_head 50
                  (text_column ["a@b.com"; "c@d.com"; "x"])) <= 2) as Hlow.
  { intros tag pattern Hin.
    repeat (apply elem_of_cons in Hin as [[= -> ->]|Hin];
            [vm_compute; lia|]).
    by apply elem_of_nil in Hin. }
  split; [exact Hlow|]. split.
  - apply (C4_value_detection_threshold
             (text_column ["a@b.com"; "c@d.com"; "x"])), Hlow.
  - by vm_compute.
Defined.

(** C7: every row of a scan has a non-empty tag list without duplicates
    and in increasing order, and the rows are, in column order, exactly
    the columns whose classification found a tag: a column without tags
    has no row. *)
Theorem C7_rows_are_tagged (df : DataFrame) (table_name : string) :
  Forall (fun r => detected_tags r <> []
                   /\ NoDup (detected_tags r)
                   /\ StronglySorted PyStr.le (detected_tags r))
         (scan_dataframe df table_name)
  /\ map column (scan_dataframe df table_name)
     = map fst (filter (fun entry => tags (classify entry.1 entry.2) <> []) df).
Proof.
  split.
  - eapply Forall_impl.
    + apply (scan_dataframe_Forall
               (fun col series r =>
                  detected_tags r <> [] /\ NoDup (detected_tags r)
                  /\ StronglySorted PyStr.le (detected_tags r))).
      intros col series r _ [Htagged ->]%column_rows_inv. simpl.
      split; [|split].
      * by intros ?%PyStrFacts.sorted_nil_inv.
      * rewrite PyStrFacts.sorted_Permutation. apply classify_tags_NoDup.
      * apply PyStrFacts.sorted_Sorted.
    + intros r (col & series & _ & _ & Hr). exact Hr.
  - rewrite scan_dataframe_rows.
    induction df as [|[col series] df IH]; [done|].
    rewrite filter_cons. cbn [flat_map]. rewrite map_app, IH.
    unfold column_rows. cbn [fst snd].
    destruct (tags (classify col series)) eqn:Htags.
    + by rewrite decide_False by naive_solver.
    + by rewrite decide_True by done.
Qed.

(** C9: the default reason "n/a" is never used.  A classification records
    one marker with each tag, so a row's markers are not empty, and its
    [detection_reason] is their comma-joined list, which is neither empty
    nor "n/a". *)
Theorem C9_reason_is_never_the_default (df : DataFrame) (table_name : string) :
  (forall col series,
      length (reason_parts (classify col series))
      = length (tags (classify col series)))
  /\ Forall (fun r => exists col series,
                (col, series) ∈ df /\ column r = col
                /\ reason_parts (classify col series) <> []
                /\ detection_reason r
                   = PyStr.join "," (reason_parts (classify col series))
                /\ detection_reason r <> "n/a"
                /\ detection_reason r <> "")
            (scan_dataframe df table_name).
Proof.
  split; [apply classify_lengths|].
  apply (scan_dataframe_Forall
           (fun col series r =>
              reason_parts (classify col series) <> []
              /\ detection_reason r
                 = PyStr.join "," (reason_parts (classify col series))
              /\ detection_reason r <> "n/a"
              /\ detection_reason r <> "")).
  intros col series r _ [Htagged ->]%column_rows_inv. simpl.
  destruct (classify_reason col series Htagged) as (? & ? & ?). auto.
Qed.

(** C10: a row carries one or two tags.  It has the name-derived tag
    alone, the value-derived tag alone, the fallback tag "name" alone, or
    a name-derived and a different value-derived tag; a classification
    that holds the fallback marker holds the tag "name" and nothing
    else. *)
Theorem C10_at_most_two_tags (df : DataFrame) (table_name : string) :
  Forall (fun r => exists col series,
              (col, series) ∈ df /\ column r = col
              /\ 1 <= length (detected_tags r) <= 2
              /\ ((exists n, detect_by_name col = Some n
                             /\ (detect_by_values series = None
                                 \/ detect_by_values series = Some n)
                             /\ detected_tags r = [n])
                  \/ (exists v, detect_by_name col = None
                                /\ detect_by_values series = Some v
                                /\ detected_tags r = [v])
                  \/ (detect_by_name col = None
                      /\ detect_by_values series = None
                      /\ detected_tags r = ["name"]
                      /\ detection_reason r = "heuristic:name_with_spaces")
                  \/ (exists n v, detect_by_name col = Some n
                                  /\ detect_by_values series = Some v
                                  /\ n <> v
                                  /\ detected_tags r ≡ₚ [n; v])))
         (scan_dataframe df table_name)
  /\ (forall col series,
        "heuristic:name_with_spaces" ∈ reason_parts (classify col series) ->
        classify col series
        = {| tags := ["name"];
             reason_parts := ["heuristic:name_with_spaces"] |}).
Proof.
  split.
  - apply (scan_dataframe_Forall
             (fun col series r =>
                1 <= length (detected_tags r) <= 2 /\ _)).
    intros col series r _ [Htagged ->]%column_rows_inv. simpl.
    rewrite (Permutation_length (PyStrFacts.sorted_Permutation _)).
    revert Htagged.
    destruct (classify_classified col series)
      as [n Hn Hv|n v Hn Hv Hne|v Hn Hv|Hn Hv _ _|]; simpl; intros Htagged;
      [| | | |done]; (split; [lia|]).
    + left. by exists n.
    + do 3 right. exists n, v. repeat split; try done.
      apply PyStrFacts.sorted_Permutation.
    + right; left. by exists v.
    + right; right; left. done.
  - intros col series.
    destruct (classify_classified col series); simpl;
      rewrite ?elem_of_cons, ?elem_of_nil; naive_solver.
Qed.

(** The theorem at a column of full names, and a scan whose rows carry
    two tags, one tag and the fallback tag. *)
Lemma C10_fallback_stands_alone :
  "heuristic:name_with_spaces" ∈ reason_parts (classify "customer" full_names)
  /\ classify "customer" full_names
     = {| tags := ["name"]; reason_parts := ["heuristic:name_with_spaces"] |}
  /\ map detected_tags
       (scan_dataframe [("ip_address", ip_values); ("username", email_values);
                        ("customer", full_names); ("user_email", email_values)]
                       "users")
     = [["ip"; "phone"]; ["email"]; ["name"]; ["email"]].
Proof.
  assert ("heuristic:name_with_spaces"
            ∈ reason_parts (classify "customer" full_names)) as Hmark
    by (vm_compute; apply list_elem_of_here).
  split; [exact Hmark|]. split.
  - apply (proj2 (C10_at_most_two_tags [] "users")), Hmark.
  - by vm_compute.
Defined.

End TaggingTheorems.

(** ** Matches of the value patterns *)

Module PatternFacts.
Import Re TaggingEngine PatternParts.

Lemma catalog_parts :
  PII_VALUE_REGEXES
  = [ ("email", anchored email_body);
      ("phone", anchored phone_body);
      ("ip", anchored ip_body);
      ("dob", anchored (Alt iso_date_body slash_date_body));
      ("national_id", anchored national_id_body) ].
Proof. reflexivity. Qed.

Section Text.
Variable text : list ascii.

Lemma spans_only (allowed : ascii -> bool) (r : regex) (i j : nat) :
  spans text r i j -> only allowed r -> run text allowed i j.
Proof.
  induction 1 as [i|cls i c Hc Hcls|r1 r2 i j k _ IH1 _ IH2|r1 r2 i j _ IH
                 |r1 r2 i j _ IH|r i|r i j k _ IH1 _ IH2| |i _|i _];
    simpl; intros Honly m Hm; try lia.
  - assert (m = i) as -> by lia. eauto.
  - destruct Honly as [H1 H2].
    destruct (decide (m < j)); [apply IH1 | apply IH2]; auto; lia.
  - apply IH; tauto.
  - apply IH; tauto.
  - destruct (decide (m < j)); [apply IH1 | apply IH2]; auto; lia.
Qed.

Lemma spans_min_len (r : regex) (i j : nat) :
  spans text r i j -> i + min_len r <= j.
Proof.
  intros Hsp. pose proof (ReFacts.spans_bounds text r i j Hsp) as [Hle _].
  clear Hle.
  induction Hsp as [i|cls i c Hc Hcls|r1 r2 i j k _ IH1 _ IH2|r1 r2 i j _ IH
                   |r1 r2 i j _ IH|r i|r i j k H1 _ H2 _| |i _|i _];
    simpl; try lia.
  apply ReFacts.spans_bounds in H1, H2. lia.
Qed.

Lemma spans_cat_cons (r : regex) (rs : list regex) (i j k : nat) :
  spans text r i j -> spans text (cat rs) j k -> spans text (cat (r :: rs)) i k.
Proof. intros. by eapply span_seq. Qed.

Lemma spans_cat_nil (i : nat) : spans text (cat []) i i.
Proof. apply span_eps. Qed.

Lemma spans_opt_skip (r : regex) (i : nat) : spans text (Opt r) i i.
Proof. apply span_alt_r, span_eps. Qed.

Lemma spans_lit (s : string) (i : nat) (rest : list ascii) :
  drop i text = list_ascii_of_string s ++ rest ->
  spans text (Lit s) i (i + String.length s).
Proof.
  revert i. induction s as [|c s IH]; intros i Hdrop; simpl.
  - rewrite Nat.add_0_r. apply span_eps.
  - simpl in Hdrop.
    assert (text !! i = Some c) as Hc.
    { rewrite <- (Nat.add_0_r i), <- lookup_drop, Hdrop. done. }
    eapply span_seq.
    + eapply span_chr; [exact Hc | apply Ascii.eqb_refl].
    + replace (i + S (String.length s)) with (S i + String.length s) by lia.
      apply IH. rewrite <- Nat.add_1_r, <- drop_drop, Hdrop. done.
Qed.

Lemma spans_rep_run (cls : ascii -> bool) (n i : nat) :
  run text cls i (i + n) -> spans text (Rep n (Chr cls)) i (i + n).
Proof.
  revert i. induction n as [|n IH]; intros i Hrun; simpl.
  - rewrite Nat.add_0_r. apply span_eps.
  - destruct (Hrun i) as (c & Hc & Hcls); [lia|].
    eapply span_seq; [by eapply span_chr|].
    replace (i + S n) with (S i + n) by lia. apply IH.
    intros k Hk. apply Hrun. lia.
Qed.

Lemma spans_star_run (cls : ascii -> bool) (n i : nat) :
  run text cls i (i + n) -> spans text (Star (Chr cls)) i (i + n).
Proof.
  revert i. induction n as [|n IH]; intros i Hrun.
  - rewrite Nat.add_0_r. apply span_star_stop.
  - destruct (Hrun i) as (c & Hc & Hcls); [lia|].
    eapply span_star_more; [by eapply span_chr|].
    replace (i + S n) with (S i + n) by lia. apply IH.
    intros k Hk. apply Hrun. lia.
Qed.

Lemma spans_atleast_run (cls : ascii -> bool) (n i j : nat) :
  i + n <= j -> run text cls i j -> spans text (AtLeast n (Chr cls)) i j.
Proof.
  intros Hle Hrun. unfold AtLeast. eapply span_seq.
  - apply spans_rep_run. intros k Hk. apply Hrun. lia.
  - replace j with ((i + n) + (j - (i + n))) by lia.
    apply spans_star_run. intros k Hk. apply Hrun. lia.
Qed.

(** The phone pattern takes any digit followed by 7 or more characters of
    its class. *)
Lemma spans_phone (j : nat) (c : ascii) :
  text !! 0 = Some c -> digit c = true ->
  run text phone_class 1 j -> 8 <= j ->
  spans text phone_body 0 j.
Proof.
  intros Hc Hdigit Hrun Hlen. unfold phone_body.
  eapply spans_cat_cons; [apply spans_opt_skip|].
  eapply spans_cat_cons; [by eapply span_chr|].
  eapply spans_cat_cons; [|apply spans_cat_nil].
  apply spans_atleast_run; [lia | done].
Qed.

(** How a first character is inherited. *)
Lemma leads_chr (cls cls' : ascii -> bool) :
  (forall c, cls' c = true -> cls c = true) -> leads text cls (Chr cls').
Proof.
  intros Hsub i j Hsp. inversion Hsp; subst. eauto.
Qed.

Lemma leads_seq (cls : ascii -> bool) (r1 r2 : regex) :
  leads text cls r1 -> leads text cls (Seq r1 r2).
Proof. intros H1 i j Hsp. inversion Hsp; subst. eauto. Qed.

Lemma leads_opt_seq (cls : ascii -> bool) (r1 r2 : regex) :
  leads text cls r1 -> leads text cls r2 -> leads text cls (Seq (Opt r1) r2).
Proof.
  intros H1 H2 i j Hsp. inversion Hsp as [| |? ? ? k ? Hopt Hrest| | | | | | |]; subst.
  inversion Hopt as [| | |? ? ? ? Hl|? ? ? ? Hr| | | | |]; subst; [eauto|].
  inversion Hr; subst. eauto.
Qed.

Lemma leads_alt (cls : ascii -> bool) (r1 r2 : regex) :
  leads text cls r1 -> leads text cls r2 -> leads text cls (Alt r1 r2).
Proof. intros H1 H2 i j Hsp. inversion Hsp; subst; eauto. Qed.

Lemma leads_eqb_digit (c : ascii) :
  digit c = true -> forall c', Ascii.eqb c c' = true -> digit c' = true.
Proof. by intros Hc c' ->%Ascii.eqb_eq. Qed.

Lemma leads_octet : leads text digit octet.
Proof.
  unfold octet. cbn [alt cat foldr Lit].
  apply leads_alt; [|apply leads_alt].
  - do 2 apply leads_seq. by apply leads_chr, leads_eqb_digit.
  - do 2 apply leads_seq. by apply leads_chr, leads_eqb_digit.
  - apply leads_opt_seq.
    + apply leads_chr. intros c. unfold one_of. cbn [PyStr.contains_char].
      rewrite orb_false_r.
      intros [<-%Ascii.eqb_eq| <-%Ascii.eqb_eq]%orb_true_iff; reflexivity.
    + apply leads_seq. by apply leads_chr.
Qed.

Lemma leads_national_id : leads text digit national_id_body.
Proof.
  unfold national_id_body. cbn [cat foldr Rep].
  do 2 apply leads_seq. by apply leads_chr.
Qed.

Lemma leads_iso_date : leads text digit iso_date_body.
Proof.
  unfold iso_date_body. cbn [cat foldr Rep].
  do 2 apply leads_seq. by apply leads_chr.
Qed.

Lemma leads_ip : leads text digit ip_body.
Proof.
  unfold ip_body. cbn [cat foldr Rep].
  do 3 apply leads_seq. apply leads_octet.
Qed.

(** A match of the email pattern holds an at sign. *)
Lemma email_has_at (j : nat) :
  spans text email_body 0 j -> exists k, text !! k = Some "@"%char.
Proof.
  unfold email_body. cbn [cat foldr Lit].
  intros Hsp. inversion Hsp as [| |? ? ? a ? _ Hrest| | | | | | |]; subst.
  inversion Hrest as [| |? ? ? b ? Hat _| | | | | | |]; subst.
  inversion Hat as [| |? ? ? d ? Hchr _| | | | | | |]; subst.
  inversion Hchr as [|? ? c Hc Heq| | | | | | | |]; subst.
  apply Ascii.eqb_eq in Heq as <-. eauto.
Qed.

End Text.

Lemma length_list_ascii (s : string) :
  length (list_ascii_of_string s) = String.length s.
Proof. induction s as [|c s IH]; simpl; congruence. Qed.

(** The characters of a value that [^ body $] matches: those of the body,
    and possibly a final line feed. *)
Lemma match_chars (allowed : ascii -> bool) (body : regex) (v : string) :
  let text := list_ascii_of_string v in
  only allowed body ->
  match_ (anchored body) v = true ->
  run text (fun c => allowed c || newline c) 0 (length text).
Proof.
  intros text Honly (j & Hsp & Hend)%ReFacts.match_anchored k Hk. fold text in Hsp, Hend.
  pose proof (spans_only text allowed body 0 j Hsp Honly) as Hrun.
  destruct (decide (k < j)) as [Hlt|Hge].
  - destruct (Hrun k) as (c & Hc & Hal); [lia|]. exists c. by rewrite Hal.
  - destruct Hend as [->|[Hlen Hnl]]; [lia|].
    assert (k = j) as -> by lia. exists (ascii_of_nat 10).
    split; [done|]. apply orb_true_r.
Qed.

(** Where the pattern [^ body $] matches a value of 8 characters or more
    that starts with a digit and is made of characters of the phone class,
    the phone pattern matches it too. *)
Lemma phone_subsumes (allowed : ascii -> bool) (body : regex) (v : string) :
  only allowed body ->
  (forall c, allowed c = true -> phone_class c = true) ->
  leads (list_ascii_of_string v) digit body ->
  8 <= String.length v ->
  match_ (anchored body) v = true ->
  match_ (anchored phone_body) v = true.
Proof.
  intros Honly Hsub Hleads Hlen Hmatch.
  pose proof (match_chars allowed body v Honly Hmatch) as Hrun.
  apply ReFacts.match_anchored in Hmatch as (j & Hsp & _).
  destruct (Hleads 0 j Hsp) as (c & Hc & Hdigit).
  apply ReFacts.match_anchored.
  exists (length (list_ascii_of_string v)). split; [|by left].
  eapply spans_phone; [exact Hc | exact Hdigit | | by rewrite length_list_ascii].
  intros k Hk. destruct (Hrun k) as (c' & Hc' & Hcls); [lia|].
  exists c'. split; [done|].
  apply orb_true_iff in Hcls as [Hal| ->%Ascii.eqb_eq]; [by apply Hsub | done].
Qed.

Lemma digit_numeric (c : ascii) : digit c = true -> numeric_class c = true.
Proof. unfold numeric_class. by intros ->. Qed.

Lemma dash_numeric (c : ascii) :
  Ascii.eqb "-" c = true -> numeric_class c = true.
Proof. by intros <-%Ascii.eqb_eq. Qed.

Lemma dot_numeric (c : ascii) :
  Ascii.eqb "." c = true -> numeric_class c = true.
Proof. by intros <-%Ascii.eqb_eq. Qed.

Lemma numeric_phone (c : ascii) :
  numeric_class c = true -> phone_class c = true.
Proof.
  unfold numeric_class, one_of. cbn [PyStr.contains_char].
  rewrite !orb_false_r.
  intros [Hd|[<-%Ascii.eqb_eq| <-%Ascii.eqb_eq]%orb_true_iff]%orb_true_iff;
    [|reflexivity..].
  unfold phone_class. by rewrite Hd.
Qed.

Lemma only_national_id : only numeric_class national_id_body.
Proof.
  unfold national_id_body. cbn [cat foldr Rep Lit Opt only].
  repeat split; auto using digit_numeric, dash_numeric.
Qed.

Lemma only_iso_date : only numeric_class iso_date_body.
Proof.
  unfold iso_date_body. cbn [cat foldr Rep Lit Opt only].
  repeat split; auto using digit_numeric, dash_numeric.
Qed.

Lemma only_octet : only numeric_class octet.
Proof.
  unfold octet. cbn [alt cat foldr Rep Lit Opt only].
  assert (forall lo hi c, 48 <= lo -> hi <= 57 ->
                          in_range lo hi c = true -> numeric_class c = true)
    as Hrange.
  { intros lo hi c Hlo Hhi [Hl Hh]%andb_true_iff. apply digit_numeric.
    apply Nat.leb_le in Hl, Hh. unfold digit, in_range.
    apply andb_true_iff. split; apply Nat.leb_le; lia. }
  repeat split; auto using digit_numeric.
  - intros c <-%Ascii.eqb_eq. reflexivity.
  - intros c <-%Ascii.eqb_eq. reflexivity.
  - intros c. apply Hrange; lia.
  - intros c <-%Ascii.eqb_eq. reflexivity.
  - intros c. apply Hrange; lia.
  - intros c. unfold one_of. cbn [PyStr.contains_char]. rewrite orb_false_r.
    intros [<-%Ascii.eqb_eq| <-%Ascii.eqb_eq]%orb_true_iff; reflexivity.
Qed.

Lemma only_ip : only numeric_class ip_body.
Proof.
  unfold ip_body. cbn [cat foldr Rep Lit only].
  repeat first [exact I | apply only_octet | apply dot_numeric | split].
Qed.

(** The three kinds of numeric identifiers are matched by the phone
    pattern and not by the email pattern. *)
Lemma numeric_id_cases (v : string) :
  numeric_id v = true ->
  exists body,
    only numeric_class body
    /\ leads (list_ascii_of_string v) digit body
    /\ 8 <= String.length v
    /\ match_ (anchored body) v = true.
Proof.
  unfold numeric_id.
  intros [[Hm|Hm]%orb_true_iff|[Hm Hlen]%andb_true_iff]%orb_true_iff.
  - exists national_id_body.
    split; [apply only_national_id|]. split; [apply leads_national_id|].
    split; [|done].
    apply ReFacts.match_anchored in Hm as (j & Hsp & Hend).
    apply spans_min_len in Hsp. rewrite <- length_list_ascii.
    change (min_len national_id_body) with 9 in Hsp. lia.
  - exists iso_date_body.
    split; [apply only_iso_date|]. split; [apply leads_iso_date|].
    split; [|done].
    apply ReFacts.match_anchored in Hm as (j & Hsp & Hend).
    apply spans_min_len in Hsp. rewrite <- length_list_ascii.
    change (min_len iso_date_body) with 10 in Hsp. lia.
  - exists ip_body.
    split; [apply only_ip|]. split; [apply leads_ip|].
    split; [by apply Nat.leb_le | done].
Qed.

Lemma numeric_id_intro (v : string) :
  match_ (anchored national_id_body) v = true
  \/ match_ (anchored iso_date_body) v = true
  \/ (match_ (anchored ip_body) v = true /\ 8 <= String.length v) ->
  numeric_id v = true.
Proof.
  unfold numeric_id. intros [->|[->|[-> Hlen]]].
  - done.
  - apply orb_true_iff. left. apply orb_true_r.
  - apply orb_true_iff. right. by apply Nat.leb_le.
Qed.

Lemma numeric_id_phone (v : string) :
  numeric_id v = true -> match_ (anchored phone_body) v = true.
Proof.
  intros (body & Honly & Hleads & Hlen & Hm)%numeric_id_cases.
  eapply phone_subsumes; eauto using numeric_phone.
Qed.

Lemma numeric_id_not_email (v : string) :
  numeric_id v = true -> match_ (anchored email_body) v = false.
Proof.
  intros (body & Honly & _ & _ & Hm)%numeric_id_cases.
  apply not_true_is_false. intros Hemail.
  pose proof (match_chars numeric_class body v Honly Hm) as Hrun.
  apply ReFacts.match_anchored in Hemail as (j & Hsp & _).
  apply email_has_at in Hsp as [k Hk].
  destruct (Hrun k) as (c & Hc & Hcls).
  { split; [lia|]. by eapply lookup_lt_Some. }
  rewrite Hk in Hc. by injection Hc as <-.
Qed.

End PatternFacts.

(** ** Which value tags can be produced *)

Module ValueTagTheorems.
Import Re TaggingEngine ClassifierSpec PatternParts PatternFacts.

Lemma count_if_le_length (f : string -> bool) (l : list string) :
  count_if f l <= length l.
Proof. induction l as [|v l IH]; simpl; [lia|]. destruct (f v); lia. Qed.

Lemma count_if_mono (f g : string -> bool) (l : list string) :
  (forall v, f v = true -> g v = true) -> count_if f l <= count_if g l.
Proof.
  intros Hfg. induction l as [|v l IH]; simpl; [lia|].
  destruct (f v) eqn:Hf; [rewrite (Hfg v Hf)|destruct (g v)]; lia.
Qed.

Lemma count_if_either (f g h : string -> bool) (l : list string) :
  (forall v, f v = true -> g v = true \/ h v = true) ->
  count_if f l <= count_if g l + count_if h l.
Proof.
  intros Hfgh. induction l as [|v l IH]; simpl; [lia|].
  destruct (f v) eqn:Hf; [|destruct (g v), (h v); lia].
  destruct (Hfgh v Hf) as [-> | ->]; [destruct (h v)|destruct (g v)]; lia.
Qed.

Lemma count_if_all (f : string -> bool) (l : list string) :
  Forall (fun v => f v = true) l -> count_if f l = length l.
Proof. induction 1 as [|v l Hv _ IH]; simpl; [done|]. rewrite Hv. lia. Qed.

Lemma count_if_none (f : string -> bool) (l : list string) :
  Forall (fun v => f v = false) l -> count_if f l = 0.
Proof. induction 1 as [|v l Hv _ IH]; simpl; [done|]. by rewrite Hv. Qed.

Lemma count_if_pos (f : string -> bool) (l : list string) :
  0 < count_if f l -> exists v, v ∈ l /\ f v = true.
Proof.
  induction l as [|v l IH]; simpl; [lia|].
  destruct (f v) eqn:Hf.
  - intros _. exists v. split; [apply list_elem_of_here | done].
  - intros (w & Hw & Hfw)%IH. exists w. split; [by apply list_elem_of_further | done].
Qed.

(** The loop of [detect_by_values], also for an empty sample. *)
Lemma detect_by_values_loop (series : Series) :
  detect_by_values series
  = first_tag (fun pattern =>
                 (3 <=? matches pattern (dropna_astype_str_head 50 series))%nat)
      PII_VALUE_REGEXES.
Proof.
  unfold detect_by_values.
  by destruct (dropna_astype_str_head 50 series).
Qed.

Lemma match_dob_branches (v : string) :
  match_ (anchored (Alt iso_date_body slash_date_body)) v = true ->
  match_ (anchored iso_date_body) v = true
  \/ match_ (anchored slash_date_body) v = true.
Proof.
  intros (j & Hsp & Hend)%ReFacts.match_anchored.
  inversion Hsp; subst; [left|right]; apply ReFacts.match_anchored; eauto.
Qed.

(** Every value that the national_id pattern matches, every value that
    the ISO branch of the dob pattern matches and every value of 8
    characters or more that the ip pattern matches is matched by the phone
    pattern, which comes before these three in the catalog, and is not
    matched by the email pattern. *)
Theorem phone_pattern_shadows (v : string) :
  match_ (anchored national_id_body) v = true
  \/ match_ (anchored iso_date_body) v = true
  \/ (match_ (anchored ip_body) v = true /\ 8 <= String.length v) ->
  match_ (anchored phone_body) v = true
  /\ match_ (anchored email_body) v = false.
Proof.
  intros Hnum%numeric_id_intro.
  split; [by apply numeric_id_phone | by apply numeric_id_not_email].
Qed.

(** The theorem at a dashed SSN, an ISO date and a dotted quad. *)
Lemma phone_pattern_shadows_examples :
  (match_ (anchored phone_body) "123-45-6789" = true
   /\ match_ (anchored email_body) "123-45-6789" = false)
  /\ (match_ (anchored phone_body) "1990-01-01" = true
      /\ match_ (anchored email_body) "1990-01-01" = false)
  /\ (match_ (anchored phone_body) "192.168.1.1" = true
      /\ match_ (anchored email_body) "192.168.1.1" = false).
Proof.
  split; [|split].
  - apply phone_pattern_shadows. left. by vm_compute.
  - apply phone_pattern_shadows. right; left. by vm_compute.
  - apply phone_pattern_shadows. right; right. split; [by vm_compute|].
    vm_compute. lia.
Defined.

(** Value detection never returns "national_id": three values that its
    pattern matches are three values that the phone pattern matches. *)
Theorem value_tag_is_never_national_id (series : Series) :
  detect_by_values series <> Some "national_id".
Proof.
  rewrite detect_by_values_loop, catalog_parts.
  set (sample := dropna_astype_str_head 50 series). cbn [first_tag].
  destruct (3 <=? matches (anchored email_body) sample)%nat; [done|].
  destruct (3 <=? matches (anchored phone_body) sample)%nat eqn:Hphone; [done|].
  destruct (3 <=? matches (anchored ip_body) sample)%nat; [done|].
  destruct (3 <=? matches (anchored (Alt _ _)) sample)%nat; [done|].
  destruct (3 <=? matches (anchored national_id_body) sample)%nat eqn:Hnid;
    [|done].
  apply Nat.leb_gt in Hphone. apply Nat.leb_le in Hnid.
  assert (matches (anchored national_id_body) sample
          <= matches (anchored phone_body) sample) as Hle; [|lia].
  apply count_if_mono. intros v Hv. apply numeric_id_phone, numeric_id_intro.
  by left.
Qed.

(** A value tag "dob" needs a sampled value in the slash form
    dd/dd/dddd, and a value tag "ip" a sampled dotted quad of fewer than 8
    characters: the ISO dates and the longer quads count for the phone
    pattern first. *)
Theorem value_tags_dob_and_ip (series : Series) :
  let sample := dropna_astype_str_head 50 series in
  (detect_by_values series = Some "dob" ->
   exists v, v ∈ sample /\ match_ (anchored slash_date_body) v = true)
  /\ (detect_by_values series = Some "ip" ->
      exists v, v ∈ sample /\ match_ (anchored ip_body) v = true
                /\ String.length v < 8).
Proof.
  intros sample. rewrite detect_by_values_loop, catalog_parts.
  fold sample. cbn [first_tag].
  destruct (3 <=? matches (anchored email_body) sample)%nat; [by split|].
  destruct (3 <=? matches (anchored phone_body) sample)%nat eqn:Hphone;
    [by split|].
  apply Nat.leb_gt in Hphone.
  destruct (3 <=? matches (anchored ip_body) sample)%nat eqn:Hip.
  - split; [done|]. intros _. apply Nat.leb_le in Hip.
    set (short v := match_ (anchored ip_body) v
                    && negb (8 <=? String.length v)%nat).
    assert (matches (anchored ip_body) sample
            <= matches (anchored phone_body) sample + count_if short sample)
      as Hle.
    { apply count_if_either. intros v Hv. unfold short. rewrite Hv.
      destruct (8 <=? String.length v)%nat eqn:Hlen; [left|by right].
      apply numeric_id_phone, numeric_id_intro. right; right. split; [done|].
      by apply Nat.leb_le. }
    destruct (count_if_pos short sample) as (v & Hin & Hshort); [lia|].
    apply andb_true_iff in Hshort as [Hm Hlen].
    apply negb_true_iff, Nat.leb_gt in Hlen. eauto.
  - destruct (3 <=? matches (anchored (Alt _ _)) sample)%nat eqn:Hdob;
      [|by destruct (3 <=? matches (anchored national_id_body) sample)%nat].
    split; [|done].
    intros _. apply Nat.leb_le in Hdob.
    assert (matches (anchored (Alt iso_date_body slash_date_body)) sample
            <= matches (anchored phone_body) sample
               + count_if (match_ (anchored slash_date_body)) sample) as Hle.
    { apply count_if_either.
      intros v [Hv|Hv]%match_dob_branches; [left|by right].
      apply numeric_id_phone, numeric_id_intro. right. by left. }
    apply count_if_pos. lia.
Qed.

(** The theorem at a column of slash dates and at a column of short
    dotted quads. *)
Lemma value_tags_dob_and_ip_examples :
  (exists v, v ∈ ["12/31/1990"; "01/02/2000"; "03/04/2001"]
             /\ match_ (anchored slash_date_body) v = true)
  /\ (exists v, v ∈ ["1.2.3.4"; "5.6.7.8"; "9.9.9.9"]
                /\ match_ (anchored ip_body) v = true
                /\ String.length v < 8).
Proof.
  split.
  - apply (proj1 (value_tags_dob_and_ip
                    (text_column ["12/31/1990"; "01/02/2000"; "03/04/2001"]))).
    by vm_compute.
  - apply (proj2 (value_tags_dob_and_ip
                    (text_column ["1.2.3.4"; "5.6.7.8"; "9.9.9.9"]))).
    by vm_compute.
Defined.

(** A column whose sampled values, 3 or more, are all SSNs, ISO dates or
    dotted quads of 8 characters or more gets the value tag "phone". *)
Theorem numeric_ids_are_tagged_phone (series : Series) :
  let sample := dropna_astype_str_head 50 series in
  3 <= length sample ->
  Forall (fun v => numeric_id v = true) sample ->
  detect_by_values series = Some "phone".
Proof.
  intros sample Hlen Hall. rewrite detect_by_values_loop, catalog_parts.
  fold sample. cbn [first_tag].
  assert (matches (anchored email_body) sample = 0) as ->.
  { apply count_if_none. eapply Forall_impl; [exact Hall|].
    intros v. apply numeric_id_not_email. }
  assert (matches (anchored phone_body) sample = length sample) as ->.
  { apply count_if_all. eapply Forall_impl; [exact Hall|].
    intros v. apply numeric_id_phone. }
  by rewrite (proj2 (Nat.leb_le 3 (length sample)) Hlen).
Qed.

(** The theorem at the SSN, date of birth and IP address columns of the
    repository's test frame. *)
Lemma numeric_ids_are_tagged_phone_examples :
  detect_by_values (text_column ["123-45-6789"; "987-65-4321"; "456-78-9012"])
  = Some "phone"
  /\ detect_by_values (text_column ["1990-01-01"; "1985-12-31"; "2000-06-15"])
     = Some "phone"
  /\ detect_by_values ip_values = Some "phone".
Proof.
  split; [|split];
    (apply numeric_ids_are_tagged_phone;
     [ change (3 <= 3); lia
     | repeat (constructor; [vm_compute; reflexivity|]); constructor ]).
Defined.

End ValueTagTheorems.

(** ** Which names are tagged, and columns with few values *)

Module NameTagTheorems.
Import Re TaggingEngine ClassifierSpec PatternParts PatternFacts TaggingFacts.

Lemma name_catalog_parts :
  PII_COLUMN_NAME_PATTERNS
  = ("email", email_name) :: ("phone", phone_name) :: ("ip", ip_name)
    :: drop 3 PII_COLUMN_NAME_PATTERNS.
Proof. reflexivity. Qed.

Lemma lower_app (a b : string) :
  PyStr.lower (a +:+ b) = PyStr.lower a +:+ PyStr.lower b.
Proof.
  induction a as [|c a IH]; [done|].
  change (PyStr.lower (String c (a +:+ b))
          = String (PyStr.lower_char c) (PyStr.lower a +:+ PyStr.lower b)).
  cbn [PyStr.lower]. by rewrite IH.
Qed.

Lemma list_ascii_app (a b : string) :
  list_ascii_of_string (a +:+ b)
  = list_ascii_of_string a ++ list_ascii_of_string b.
Proof.
  induction a as [|c a IH]; [done|].
  change (list_ascii_of_string (String c (a +:+ b))
          = c :: (list_ascii_of_string a ++ list_ascii_of_string b)).
  cbn [list_ascii_of_string]. by rewrite IH.
Qed.

Lemma spans_lit_at (text pre post : list ascii) (s : string) :
  text = pre ++ list_ascii_of_string s ++ post ->
  spans text (Lit s) (length pre) (length pre + String.length s).
Proof.
  intros ->. eapply spans_lit. by rewrite drop_app_length.
Qed.

(** The second branch of the email name pattern, [e[-_]?mail], at a
    position where the subject reads email, e-mail or e_mail. *)
Lemma spans_e_mail (text pre post : list ascii) (mid : string) :
  mid = "email" \/ mid = "e-mail" \/ mid = "e_mail" ->
  text = pre ++ list_ascii_of_string mid ++ post ->
  exists j, spans text email_name (length pre) j.
Proof.
  intros Hmid Htext. unfold email_name. cbn [alt].
  assert (spans text (Lit "e") (length pre) (length pre + 1)) as He.
  { apply (spans_lit_at text pre (drop 1 (list_ascii_of_string mid) ++ post)).
    rewrite Htext. by destruct Hmid as [->|[->| ->]]. }
  destruct Hmid as [->|Hsep].
  - exists (length pre + 1 + 4). apply span_alt_r.
    eapply spans_cat_cons; [exact He|].
    eapply spans_cat_cons; [apply spans_opt_skip|].
    eapply spans_cat_cons; [|apply spans_cat_nil].
    replace (length pre + 1) with (length (pre ++ list_ascii_of_string "e"))
      by (rewrite length_app; done).
    apply (spans_lit_at text _ post "mail"). rewrite Htext, <- app_assoc. done.
  - exists (length pre + 2 + 4). apply span_alt_r.
    eapply spans_cat_cons; [exact He|].
    eapply (spans_cat_cons _ _ _ _ (length pre + 2)).
    + apply span_alt_l.
      replace (length pre + 2) with (S (length pre + 1)) by lia.
      assert (exists c, text !! (length pre + 1) = Some c
                        /\ one_of "-_" c = true) as (c & Hc & Hcls).
      { rewrite Htext, lookup_app_r by lia.
        replace (length pre + 1 - length pre) with 1 by lia.
        destruct Hsep as [->| ->]; eauto. }
      by eapply span_chr.
    + eapply spans_cat_cons; [|apply spans_cat_nil].
      destruct Hsep as [->| ->].
      * replace (length pre + 2)
          with (length (pre ++ list_ascii_of_string "e-"))
          by (rewrite length_app; done).
        apply (spans_lit_at text _ post "mail").
        rewrite Htext, <- app_assoc. done.
      * replace (length pre + 2)
          with (length (pre ++ list_ascii_of_string "e_"))
          by (rewrite length_app; done).
        apply (spans_lit_at text _ post "mail").
        rewrite Htext, <- app_assoc. done.
Qed.

(** The lowered name, split where the column name is. *)
Lemma lowered_text (pre mid post : string) :
  list_ascii_of_string (PyStr.lower (pre +:+ mid +:+ post))
  = list_ascii_of_string (PyStr.lower pre)
    ++ list_ascii_of_string (PyStr.lower mid)
    ++ list_ascii_of_string (PyStr.lower post).
Proof. by rewrite !lower_app, !list_ascii_app. Qed.

Lemma search_at (pattern : regex) (s : string) (pre : list ascii) (j : nat) :
  length pre <= length (list_ascii_of_string s) ->
  spans (list_ascii_of_string s) pattern (length pre) j ->
  search pattern s = true.
Proof. intros Hle Hsp. apply ReFacts.search_spans. eauto. Qed.

(** A column whose name contains email, e-mail or e_mail, in any letter
    case, gets the name tag "email". *)
Theorem name_containing_email (pre mid post : string) :
  PyStr.lower mid = "email" \/ PyStr.lower mid = "e-mail"
  \/ PyStr.lower mid = "e_mail" ->
  detect_by_name (pre +:+ mid +:+ post) = Some "email".
Proof.
  intros Hmid. unfold detect_by_name. rewrite name_catalog_parts.
  cbn [first_tag].
  destruct (spans_e_mail _ _ _ _ Hmid (lowered_text pre mid post)) as [j Hsp].
  rewrite (search_at _ _ (list_ascii_of_string (PyStr.lower pre)) j);
    [done| |exact Hsp].
  rewrite lowered_text, length_app. lia.
Qed.

(** The theorem at three column names. *)
Lemma name_containing_email_examples :
  detect_by_name "UserEmail" = Some "email"
  /\ detect_by_name "customer_E-Mail_address" = Some "email"
  /\ detect_by_name "e_mail" = Some "email".
Proof.
  split; [|split].
  - apply (name_containing_email "User" "Email" ""). by left.
  - apply (name_containing_email "customer_" "E-Mail" "_address").
    right. by left.
  - apply (name_containing_email "" "e_mail" ""). right. by right.
Defined.

(** A column whose name contains the letters ip, in any letter case and
    anywhere in the name, always gets a name tag: "ip", unless the email
    or the phone pattern matches the name first. *)
Theorem name_containing_ip (pre mid post : string) :
  PyStr.lower mid = "ip" ->
  detect_by_name (pre +:+ mid +:+ post) = Some "email"
  \/ detect_by_name (pre +:+ mid +:+ post) = Some "phone"
  \/ detect_by_name (pre +:+ mid +:+ post) = Some "ip".
Proof.
  intros Hmid. unfold detect_by_name. rewrite name_catalog_parts.
  cbn [first_tag].
  destruct (search email_name _); [by left|].
  destruct (search phone_name _); [right; by left|].
  rewrite (search_at ip_name _ (list_ascii_of_string (PyStr.lower pre))
             (length (list_ascii_of_string (PyStr.lower pre)) + 2)).
  - right. by right.
  - rewrite lowered_text, length_app. lia.
  - unfold ip_name. cbn [alt]. apply span_alt_l.
    eapply spans_cat_cons; [|eapply spans_cat_cons;
                              [apply spans_opt_skip | apply spans_cat_nil]].
    apply (spans_lit_at _ _ (list_ascii_of_string (PyStr.lower post)) "ip").
    by rewrite lowered_text, Hmid.
Qed.

(** The theorem at three column names that hold no address. *)
Lemma name_containing_ip_examples :
  detect_by_name "description" = Some "ip"
  /\ detect_by_name "zip_code" = Some "ip"
  /\ detect_by_name "Shipping_Date" = Some "ip".
Proof.
  split; [|split].
  - destruct (name_containing_ip "descr" "ip" "tion") as [H|[H|H]];
      [done | | |]; by vm_compute in H |- *.
  - destruct (name_containing_ip "z" "ip" "_code") as [H|[H|H]];
      [done | | |]; by vm_compute in H |- *.
  - destruct (name_containing_ip "Sh" "ip" "ping_Date") as [H|[H|H]];
      [done | | |]; by vm_compute in H |- *.
Defined.

(** With fewer than 3 non-null values a column has no value tag and no
    fallback tag: it is tagged by its name or not at all.  This covers the
    empty and the all-null column. *)
Theorem sparse_column_is_tagged_by_name (col : string) (series : Series) :
  length (omap (fun cell => cell) (series_cells series)) < 3 ->
  detect_by_values series = None
  /\ classify col series
     = match detect_by_name col with
       | Some n => {| tags := [n]; reason_parts := ["name:" +:+ n] |}
       | None => {| tags := []; reason_parts := [] |}
       end.
Proof.
  intros Hfew.
  assert (forall n test,
             count_if test (dropna_astype_str_head n series) < 3) as Hcount.
  { intros n test.
    pose proof (ValueTagTheorems.count_if_le_length test
                  (dropna_astype_str_head n series)) as Hle.
    unfold dropna_astype_str_head in *. rewrite length_take in Hle. lia. }
  assert (detect_by_values series = None) as Hnone.
  { rewrite ValueTagTheorems.detect_by_values_loop. apply first_tag_None.
    apply Forall_forall. intros [tag pattern] _. apply Nat.leb_gt, Hcount. }
  split; [done|].
  pose proof (classify_classified col series) as Hc.
  inversion Hc as [n Hn _|n v _ Hv _|v _ Hv|Hn _ _ Hfive|Hn _ _];
    try congruence.
  - by rewrite Hn.
  - specialize (Hcount 20 (PyStr.contains_char " ")). lia.
  - by rewrite Hn.
Qed.

(** The theorem at the all-null column of the repository's test frame. *)
Lemma sparse_column_examples :
  classify "empty_column" (mkSeries object [None; None; None])
  = {| tags := []; reason_parts := [] |}
  /\ classify "ssn" (mkSeries object [None; Some "123-45-6789"; None])
     = {| tags := ["national_id"]; reason_parts := ["name:national_id"] |}.
Proof.
  split.
  - refine (eq_trans (proj2 (sparse_column_is_tagged_by_name
                               "empty_column"
                               (mkSeries object [None; None; None]) _)) _);
      [vm_compute; lia | by vm_compute].
  - refine (eq_trans (proj2 (sparse_column_is_tagged_by_name
                               "ssn"
                               (mkSeries object [None; Some "123-45-6789"; None])
                               _)) _);
      [vm_compute; lia | by vm_compute].
Defined.

End NameTagTheorems.

(** ** Splitting what was joined *)

Module JoinSplitFacts.
Import PyStr.

Lemma split_not_nil (sep : ascii) (s : string) : split sep s <> [].
Proof.
  destruct s as [|c s]; simpl; [done|].
  destruct (Ascii.eqb c sep); [done|]. by destruct (split sep s).
Qed.

(** No piece of a split holds the separator. *)
Lemma split_pieces (sep : ascii) (s : string) :
  Forall (fun w => contains_char sep w = false) (split sep s).
Proof.
  induction s as [|c s IH]; simpl; [by repeat constructor|].
  destruct (Ascii.eqb c sep) eqn:Hc; [by constructor|].
  destruct (split sep s) as [|w ws]; simpl.
  - repeat constructor. simpl. by rewrite Hc.
  - apply Forall_cons in IH as [Hw Hws]. constructor; [|done].
    simpl. by rewrite Hc.
Qed.

Lemma split_piece (sep : ascii) (x : string) :
  contains_char sep x = false -> split sep x = [x].
Proof.
  induction x as [|c x IH]; simpl; [done|].
  intros [Hc Hx]%orb_false_iff. rewrite Hc, (IH Hx). done.
Qed.

Lemma split_piece_sep (sep : ascii) (x rest : string) :
  contains_char sep x = false ->
  split sep (x +:+ String sep rest) = x :: split sep rest.
Proof.
  induction x as [|c x IH]; intros Hx.
  - change (split sep (String sep rest) = "" :: split sep rest).
    simpl. by rewrite Ascii.eqb_refl.
  - change (split sep (String c (x +:+ String sep rest))
            = String c x :: split sep rest).
    simpl in Hx. apply orb_false_iff in Hx as [Hc Hx].
    simpl. by rewrite Hc, (IH Hx).
Qed.

(** [",".join(l).split(",")] is [l] when [l] is not empty and none of its
    strings holds a comma. *)
Lemma split_join (l : list string) :
  l <> [] ->
  Forall (fun w => contains_char "," w = false) l ->
  split "," (join "," l) = l.
Proof.
  intros Hne Hall. induction Hall as [|x l Hx Hall IH]; [done|].
  destruct l as [|y l].
  - simpl. by apply split_piece.
  - change (split "," (x +:+ String "," (join "," (y :: l))) = x :: y :: l).
    rewrite (split_piece_sep _ _ _ Hx), IH; done.
Qed.

End JoinSplitFacts.

(** ** More on the policy evaluator *)

Module PolicyExtraTheorems.
Import PolicyEngine PolicySpec PolicyFacts Pipeline.

Lemma elem_of_row_violations (policy : PolicyRule) (row : RegistryRow)
    (v : Violation) :
  v ∈ row_violations policy row
  <-> skipped policy row = false
      /\ ((forbidden_fires policy row = true
           /\ v = forbidden_violation policy row)
          \/ (missing_fires policy row = true
              /\ v = missing_tag_violation policy row)).
Proof.
  unfold row_violations. destruct (skipped policy row).
  - rewrite elem_of_nil. naive_solver.
  - rewrite elem_of_app.
    destruct (forbidden_fires policy row), (missing_fires policy row);
      rewrite ?list_elem_of_singleton, ?elem_of_nil; naive_solver.
Qed.

Lemma elem_of_evaluate_policies (policies : PolicyDoc) (registry : Registry)
    (v : Violation) :
  v ∈ evaluate_policies policies registry
  <-> exists policy row,
        policy ∈ default [] (doc_policies policies)
        /\ row ∈ registry
        /\ skipped policy row = false
        /\ ((forbidden_fires policy row = true
             /\ v = forbidden_violation policy row)
            \/ (missing_fires policy row = true
                /\ v = missing_tag_violation policy row)).
Proof.
  rewrite evaluate_policies_in_order. unfold evaluate_in_order.
  rewrite list_elem_of_In, in_flat_map. split.
  - intros (policy & Hp & Hv). apply in_flat_map in Hv as (row & Hr & Hv).
    apply list_elem_of_In, elem_of_row_violations in Hv as [Hscope Hcheck].
    exists policy, row. by rewrite !list_elem_of_In.
  - intros (policy & row & Hp & Hr & Hscope & Hcheck).
    exists policy. split; [by apply list_elem_of_In|].
    apply in_flat_map. exists row. split; [by apply list_elem_of_In|].
    by apply list_elem_of_In, elem_of_row_violations.
Qed.

(** Where every violation comes from: [v] is emitted exactly when some
    rule of the document and some row of the registry that the rule's
    scope keeps make one of the two checks fire, and [v] is the violation
    of that check for that rule and row. *)
Theorem violation_provenance (policies : PolicyDoc) (registry : Registry)
    (v : Violation) :
  v ∈ evaluate_policies policies registry
  <-> exists policy row,
        policy ∈ default [] (doc_policies policies)
        /\ row ∈ registry
        /\ skipped policy row = false
        /\ ((forbidden_fires policy row = true
             /\ v = forbidden_violation policy row)
            \/ (missing_fires policy row = true
                /\ v = missing_tag_violation policy row)).
Proof. apply elem_of_evaluate_policies. Qed.

(** The theorem, from right to left, at scenario C. *)
Lemma violation_provenance_example :
  forbidden_violation no_ssn logs_ssn
    ∈ evaluate_policies (doc [must_tag; no_ssn]) [untagged; logs_ssn].
Proof.
  apply violation_provenance. exists no_ssn, logs_ssn.
  split; [by vm_compute; repeat constructor|].
  split; [by repeat constructor|].
  split; [reflexivity|]. left. split; [by vm_compute | reflexivity].
Defined.

(** What the two checks test, in terms of the [pii_tags] cell of the
    row: the forbidden-tag check fires when one of the comma-separated
    pieces of a non-null cell is, character for character, one of the
    rule's forbidden tags; the missing-tag check fires when the rule asks
    for it and the cell is null.  A cell that holds a string, even the
    empty one, is never reported as missing its tag. *)
Theorem checks_read_the_cell (policy : PolicyRule) (row : RegistryRow) :
  (forbidden_fires policy row = true
   <-> exists s t, row_pii_tags row = Some s
                   /\ t ∈ PyStr.split "," s
                   /\ t ∈ default [] (rule_forbidden_tags policy))
  /\ (missing_fires policy row = true
      <-> default false (rule_require_tag_for_detected policy) = true
          /\ row_pii_tags row = None).
Proof.
  split.
  - rewrite forbidden_fires_true. unfold tags, forbidden, PySet.of_list.
    destruct (row_pii_tags row) as [s|]; split.
    + intros [t Ht]%set_choose_L. exists s, t.
      apply elem_of_intersection in Ht as [H1 H2].
      by rewrite !elem_of_list_to_set in H1, H2.
    + intros (s' & t & [= <-] & H1 & H2). apply (non_empty_inhabited_L t).
      apply elem_of_intersection. by rewrite !elem_of_list_to_set.
    + intros Hne. exfalso. apply Hne. set_solver.
    + by intros (s' & t & [=] & _).
  - rewrite missing_fires_true. unfold require_tag_for_detected, tags.
    destruct (row_pii_tags row) as [s|]; [|naive_solver].
    split; [|by intros [_ [=]]]. intros [_ Hempty]. exfalso.
    destruct (PyStr.split "," s) as [|w ws] eqn:Hsplit.
    + by apply JoinSplitFacts.split_not_nil in Hsplit.
    + assert (w ∈ (∅ : gset string)) as Hw; [|set_solver].
      rewrite <- Hempty. unfold PySet.of_list. set_solver.
Qed.

(** The theorem at scenario C and at scenario E. *)
Lemma checks_read_the_cell_examples :
  forbidden_fires no_ssn logs_ssn = true
  /\ missing_fires must_tag untagged = true.
Proof.
  split.
  - apply (proj1 (checks_read_the_cell no_ssn logs_ssn)).
    exists "national_id", "national_id".
    split; [reflexivity|]. split; apply list_elem_of_here.
  - apply (proj2 (checks_read_the_cell must_tag untagged)). by split.
Defined.

Lemma flat_map_length_le {A B : Type} (f : A -> list B) (k : nat)
    (l : list A) :
  (forall x, length (f x) <= k) -> length (flat_map f l) <= k * length l.
Proof.
  intros Hf. induction l as [|x l IH]; simpl; [lia|].
  rewrite length_app. specialize (Hf x). lia.
Qed.

(** There is at most one violation for each pair of a rule and a row; in
    particular a document without rules, or without the policies key, and
    an empty registry give no violation. *)
Theorem violations_are_at_most_pairs (policies : PolicyDoc)
    (registry : Registry) :
  length (evaluate_policies policies registry)
  <= length (default [] (doc_policies policies)) * length registry.
Proof.
  rewrite evaluate_policies_in_order. unfold evaluate_in_order.
  rewrite Nat.mul_comm. apply flat_map_length_le. intros policy.
  rewrite <- (Nat.mul_1_l (length registry)).
  apply flat_map_length_le, row_violations_length.
Qed.

Lemma unscoped_row (policy : PolicyRule) (row : RegistryRow) :
  skipped policy row = false ->
  row_violations (unscoped policy) row = row_violations policy row.
Proof. unfold row_violations. by intros ->. Qed.

(** The scope of a rule acts as a filter on the registry: the rule gives
    what the same rule without [applies_to_tables] and
    [table_name_prefix] gives on the rows that its scope keeps. *)
Theorem scope_filters_the_registry (policy : PolicyRule) (registry : Registry) :
  evaluate_policies (doc [policy]) registry
  = evaluate_policies (doc [unscoped policy])
      (filter (fun row => skipped policy row = false) registry).
Proof.
  rewrite !evaluate_one_policy.
  induction registry as [|row registry IH]; [done|].
  rewrite filter_cons. cbn [flat_map]. rewrite IH.
  destruct (skipped policy row) eqn:Hskip.
  - rewrite decide_False by done.
    unfold row_violations at 1. by rewrite Hskip.
  - rewrite decide_True by done. cbn [flat_map].
    by rewrite (unscoped_row _ _ Hskip).
Qed.

(** The [pii_tags] of a forbidden-tag violation is the tag set of its
    row in a normal form: split at the commas it gives the tags of the row
    once each, in increasing order, whatever their order and number in
    the registry cell. *)
Theorem violation_keeps_the_tags (policy : PolicyRule) (row : RegistryRow) :
  forbidden_fires policy row = true ->
  PyStr.split "," (pii_tags (forbidden_violation policy row))
  = PySet.sorted (tags row)
  /\ PySet.of_list (PyStr.split "," (pii_tags (forbidden_violation policy row)))
     = tags row.
Proof.
  intros Hf. apply forbidden_fires_true in Hf.
  assert (PyStr.split "," (PyStr.join "," (PySet.sorted (tags row)))
          = PySet.sorted (tags row)) as Hsplit.
  { apply JoinSplitFacts.split_join.
    - intros Hnil. apply PyStrFacts.sorted_nil_inv, elements_empty_inv in Hnil.
      apply leibniz_equiv in Hnil. set_solver.
    - unfold PySet.sorted. rewrite PyStrFacts.sorted_Permutation.
      apply Forall_forall. intros w Hw%elem_of_elements.
      unfold tags in Hw. destruct (row_pii_tags row) as [s|]; [|set_solver].
      apply elem_of_list_to_set in Hw.
      pose proof (JoinSplitFacts.split_pieces "," s) as Hpieces.
      by eapply Forall_forall in Hpieces. }
  split; [exact Hsplit|].
  change (pii_tags (forbidden_violation policy row))
    with (PyStr.join "," (PySet.sorted (tags row))).
  rewrite Hsplit. unfold PySet.of_list, PySet.sorted.
  apply set_eq. intros x.
  by rewrite elem_of_list_to_set, PyStrFacts.sorted_elem_of, elem_of_elements.
Qed.

(** The theorem at a row whose tags are listed unsorted and twice. *)
Lemma violation_keeps_the_tags_example :
  PyStr.split ","
    (pii_tags (forbidden_violation no_ssn
                 (mkRegistryRow "logs" "id" (Some "phone,national_id,phone"))))
  = ["national_id"; "phone"].
Proof.
  refine (eq_trans (proj1 (violation_keeps_the_tags no_ssn _ _)) _);
    by vm_compute.
Defined.

End PolicyExtraTheorems.

(** ** From the scan to the evaluation *)

Module PipelineTheorems.
Import TaggingEngine ClassifierSpec TaggingFacts Pipeline.

Lemma scan_dataframe_table (df : DataFrame) (table_name : string) :
  Forall (fun r => table r = table_name) (scan_dataframe df table_name).
Proof.
  eapply Forall_impl.
  - apply (scan_dataframe_Forall (fun _ _ r => table r = table_name)).
    by intros col series r _ [_ ->]%column_rows_inv.
  - by intros r (_ & _ & _ & _ & Hr).
Qed.

(** The columns of a frame are classified one by one: scanning two groups
    of columns and joining the rows is scanning the frame that holds both,
    every row carries the table name given, and there is at most one row
    for each column. *)
Theorem scan_is_column_by_column (df1 df2 : DataFrame) (table_name : string) :
  scan_dataframe (df1 ++ df2) table_name
  = scan_dataframe df1 table_name ++ scan_dataframe df2 table_name
  /\ Forall (fun r => table r = table_name) (scan_dataframe df1 table_name)
  /\ length (scan_dataframe df1 table_name) <= length df1.
Proof.
  split; [rewrite !scan_dataframe_rows; apply flat_map_app|].
  split; [apply scan_dataframe_table|].
  rewrite scan_dataframe_rows, <- (Nat.mul_1_l (length df1)).
  apply PolicyExtraTheorems.flat_map_length_le.
  intros [col series]. unfold column_rows.
  destruct (tags _); simpl; lia.
Qed.

Lemma scan_tables_rows (tables : list (string * DataFrame)) :
  scan_tables tables
  = flat_map (fun entry => scan_dataframe entry.2 entry.1) tables.
Proof.
  unfold scan_tables.
  by rewrite (fold_left_appends _
                (fun entry => scan_dataframe entry.2 entry.1)).
Qed.

(** The vocabulary of the scanner. *)
Lemma classify_tags_vocabulary (col : string) (series : Series) :
  Forall (fun t => t ∈ ["email"; "phone"; "ip"; "dob"; "name"; "national_id"])
         (tags (classify col series)).
Proof.
  destruct (classify_classified col series)
    as [n Hn _|n v Hn Hv _|v _ Hv| |]; simpl;
    repeat (match goal with |- Forall _ _ => constructor end).
  - by apply detect_by_name_tag in Hn.
  - by apply detect_by_name_tag in Hn.
  - apply detect_by_values_tag in Hv. set_solver.
  - apply detect_by_values_tag in Hv. set_solver.
  - set_solver.
Qed.

(** A property of the rows of every frame is a property of the rows of
    the whole scan. *)
Lemma scan_tables_Forall (Q : ColumnPIIResult -> Prop)
    (tables : list (string * DataFrame)) :
  (forall df table_name, Forall Q (scan_dataframe df table_name)) ->
  Forall Q (scan_tables tables).
Proof.
  intros HQ. rewrite scan_tables_rows.
  induction tables as [|[name df] tables IH]; simpl; [constructor|].
  apply Forall_app. split; [apply HQ | exact IH].
Qed.

Lemma scan_row_facts (df : DataFrame) (table_name : string) :
  Forall (fun r =>
            detected_tags r <> []
            /\ NoDup (detected_tags r)
            /\ StronglySorted PyStr.le (detected_tags r)
            /\ Forall (fun t => t ∈ ["email"; "phone"; "ip"; "dob"; "name";
                                      "national_id"]) (detected_tags r))
         (scan_dataframe df table_name).
Proof.
  eapply Forall_impl.
  - apply (scan_dataframe_Forall
             (fun _ _ r =>
                detected_tags r <> []
                /\ NoDup (detected_tags r)
                /\ StronglySorted PyStr.le (detected_tags r)
                /\ Forall (fun t => t ∈ ["email"; "phone"; "ip"; "dob"; "name";
                                          "national_id"]) (detected_tags r))).
    intros col series r _ [Htagged ->]%column_rows_inv. simpl.
    split; [by intros ?%PyStrFacts.sorted_nil_inv|].
    split; [rewrite PyStrFacts.sorted_Permutation; apply classify_tags_NoDup|].
    split; [apply PyStrFacts.sorted_Sorted|].
    rewrite PyStrFacts.sorted_Permutation. apply classify_tags_vocabulary.
  - by intros r (_ & _ & _ & _ & Hr).
Qed.

Lemma vocabulary_no_comma (t : string) :
  t ∈ ["email"; "phone"; "ip"; "dob"; "name"; "national_id"] ->
  PyStr.contains_char "," t = false.
Proof.
  intros Hin.
  repeat (apply elem_of_cons in Hin as [->|Hin]; [reflexivity|]).
  by apply elem_of_nil in Hin.
Qed.

(** The whole scan lists the tables in the order given and, under each
    table, its tagged columns in column order; every row names a scanned
    table and carries a non-empty tag list. *)
Theorem scan_tables_is_table_by_table (tables : list (string * DataFrame)) :
  scan_tables tables
  = flat_map (fun entry => scan_dataframe entry.2 entry.1) tables
  /\ Forall (fun r => table r ∈ map fst tables /\ detected_tags r <> [])
            (scan_tables tables).
Proof.
  split; [apply scan_tables_rows|].
  rewrite scan_tables_rows.
  induction tables as [|[name df] tables IH]; simpl; [constructor|].
  apply Forall_app. split.
  - pose proof (scan_dataframe_table df name) as Htable.
    pose proof (scan_row_facts df name) as Hfacts.
    apply Forall_forall. intros r Hr.
    eapply Forall_forall in Htable, Hfacts; [|exact Hr..].
    split; [rewrite Htable; apply list_elem_of_here | apply Hfacts].
  - eapply Forall_impl; [exact IH|].
    intros r [Hin Hne]. split; [by apply list_elem_of_further | done].
Qed.

Lemma registry_keeps_the_tags_aux (tables : list (string * DataFrame)) :
  Forall (fun r =>
            PyStr.split "," (report_pii_tags (report_row r))
            = detected_tags r
            /\ PolicyEngine.tags (registry_row_of r)
               = list_to_set (detected_tags r)
            /\ PySet.sorted (PolicyEngine.tags (registry_row_of r))
               = detected_tags r)
         (scan_tables tables).
Proof.
  apply scan_tables_Forall. intros df table_name.
  eapply Forall_impl; [apply scan_row_facts|].
  intros r (Hne & Hnodup & Hsorted & Hvocab).
  assert (PyStr.split "," (PyStr.join "," (detected_tags r))
          = detected_tags r) as Hsplit.
  { apply JoinSplitFacts.split_join; [done|].
    eapply Forall_impl; [exact Hvocab|]. apply vocabulary_no_comma. }
  assert (PolicyEngine.tags (registry_row_of r)
          = list_to_set (detected_tags r)) as Htags.
  { unfold registry_row_of, registry_row, PolicyEngine.tags, PySet.of_list.
    simpl. by rewrite Hsplit. }
  split; [exact Hsplit|]. split; [exact Htags|].
  rewrite Htags. unfold PySet.sorted.
  apply (StronglySorted_unique PyStr.le);
    [apply PyStrFacts.sorted_Sorted | exact Hsorted|].
  rewrite PyStrFacts.sorted_Permutation. by apply elements_list_to_set.
Qed.

(** The registry row that [results_to_dataframe] makes of a scan row is
    read by the evaluator with exactly the tags the scanner found: joining
    and splitting at the commas loses nothing, and the sorted tag set is
    the scanner's list again. *)
Theorem registry_keeps_the_tags (tables : list (string * DataFrame)) :
  registry_of (scan_tables tables) = map registry_row_of (scan_tables tables)
  /\ Forall (fun r =>
               PyStr.split "," (report_pii_tags (report_row r))
               = detected_tags r
               /\ PolicyEngine.tags (registry_row_of r)
                  = list_to_set (detected_tags r)
               /\ PySet.sorted (PolicyEngine.tags (registry_row_of r))
                  = detected_tags r)
            (scan_tables tables).
Proof.
  split; [|apply registry_keeps_the_tags_aux].
  unfold registry_of, results_to_dataframe. by rewrite map_map.
Qed.

(** On a registry made of scan results by [results_to_dataframe] and held
    in memory the missing-tag check never fires, whatever the rules and
    whatever the results: a cell of that frame is a string, and splitting a
    string never gives an empty tag set. *)
Theorem missing_tag_is_never_reported (policies : PolicyEngine.PolicyDoc)
    (results : list ColumnPIIResult) :
  Forall (fun v => PolicyEngine.reason v <> "detected PII missing tag")
         (PolicyEngine.evaluate_policies policies (registry_of results)).
Proof.
  apply Forall_forall. intros v Hv.
  apply PolicyExtraTheorems.elem_of_evaluate_policies in Hv
    as (policy & row & _ & Hrow & _ & [[_ ->]|[Hmiss _]]); [done|].
  apply PolicyFacts.missing_fires_true in Hmiss as [_ Hempty].
  unfold registry_of in Hrow.
  apply list_elem_of_fmap in Hrow as (rr & -> & _).
  unfold PolicyEngine.tags, registry_row, PySet.of_list in Hempty.
  simpl in Hempty.
  destruct (PyStr.split "," (report_pii_tags rr)) as [|w ws] eqn:Hsplit.
  - by apply JoinSplitFacts.split_not_nil in Hsplit.
  - exfalso. apply (f_equal (fun X : gset string => bool_decide (w ∈ X))) in Hempty.
    rewrite bool_decide_eq_true_2 in Hempty by set_solver.
    by rewrite bool_decide_eq_false_2 in Hempty by set_solver.
Qed.

(** Through the scan a rule's forbidden-tag check fires on a column
    exactly when one of the tags the scanner gave the column is among the
    rule's forbidden tags, and the violation then shows the registry's own
    [pii_tags] string. *)
Theorem forbidden_rule_end_to_end (policy : PolicyEngine.PolicyRule)
    (tables : list (string * DataFrame)) :
  Forall (fun r =>
            (PolicyEngine.forbidden_fires policy (registry_row_of r) = true
             <-> exists t, t ∈ detected_tags r
                           /\ t ∈ default [] (PolicyEngine.rule_forbidden_tags
                                                policy))
            /\ PolicyEngine.pii_tags
                 (PolicyEngine.forbidden_violation policy (registry_row_of r))
               = report_pii_tags (report_row r))
         (scan_tables tables).
Proof.
  pose proof (registry_keeps_the_tags_aux tables) as Hkeep.
  eapply Forall_impl; [exact Hkeep|].
  intros r (_ & Htags & Hsorted). split.
  - rewrite PolicyFacts.forbidden_fires_true, Htags.
    unfold PolicyEngine.forbidden, PySet.of_list. split.
    + intros [t Ht]%set_choose_L. exists t.
      apply elem_of_intersection in Ht as [H1 H2].
      by rewrite !elem_of_list_to_set in H1, H2.
    + intros (t & H1 & H2). apply (non_empty_inhabited_L t).
      apply elem_of_intersection. by rewrite !elem_of_list_to_set.
  - unfold PolicyEngine.forbidden_violation. simpl. by rewrite Hsorted.
Qed.

(** The theorem at a frame with one column of addresses and a rule that
    forbids the tag "phone". *)
Lemma forbidden_rule_end_to_end_example :
  PolicyEngine.forbidden_fires
    (PolicyEngine.mkPolicyRule (Some "no_phone") (Some ["phone"]) None None None)
    (registry_row_of
       {| table := "users"; column := "ip_address";
          detected_tags := ["ip"; "phone"];
          detection_reason := "name:ip,value:phone" |})
  = true.
Proof.
  pose proof (forbidden_rule_end_to_end
                (PolicyEngine.mkPolicyRule (Some "no_phone") (Some ["phone"])
                   None None None)
                [("users", [("ip_address", ip_values)])]) as Hall.
  change (scan_tables [("users", [("ip_address", ip_values)])])
    with (scan_dataframe [("ip_address", ip_values)] "users" ++ []) in Hall.
  assert (scan_dataframe [("ip_address", ip_values)] "users"
          = [ {| table := "users"; column := "ip_address";
                 detected_tags := ["ip"; "phone"];
                 detection_reason := "name:ip,value:phone" |} ]) as Hscan
    by (by vm_compute).
  rewrite Hscan in Hall. apply Forall_inv in Hall as [Hiff _].
  apply Hiff. exists "phone". split; [|apply list_elem_of_here].
  apply list_elem_of_further, list_elem_of_here.
Defined.

End PipelineTheorems.
